(** * JetStream engine API (jetstream/engine/engine_api.py)

    A shallow embedding of the packed result buffer ([ResultTokens],
    [SlotData]), of the executor contract ([Engine]) and of the forwarding
    wrapper ([JetStreamEngine]), followed by the properties of the
    specification that can be settled on that embedding. *)

From Stdlib Require Import ZArith Lia.
From stdpp Require Import base option list functions.

Local Open Scope Z_scope.

(** ** Exceptions and fallible results *)

(** The exceptions the modelled code can raise: [IndexError] comes from array
    indexing, [TypeError] from a call whose arguments do not fit the callee's
    signature, [EngineError] stands for whatever an executor raises. *)
Inductive exn : Type :=
| IndexError
| TypeError
| EngineError (code : nat).

Inductive result (A : Type) : Type :=
| Ok (a : A)
| Raise (e : exn).

Arguments Ok {A} a.
Arguments Raise {A} e.

#[global] Instance result_ret : MRet result := λ A a, Ok a.

#[global] Instance result_bind : MBind result := λ A B f m,
  match m with
  | Ok a => f a
  | Raise e => Raise e
  end.

#[global] Instance result_fmap : FMap result := λ A B f m,
  match m with
  | Ok a => Ok (f a)
  | Raise e => Raise e
  end.

(** ** Python indexing *)

(** Indexing follows NumPy, where an integer index outside the axis raises
    [IndexError]. A [jax.Array] agrees with it on every slice and on every
    integer index inside the array. Outside the array the libraries part
    ways: a [jax.Array] clamps an index that fits in 32 bits and raises
    [OverflowError] on a larger one, and NumPy turns a tuple of indices into
    an array first, so that an index beyond 64 bits does not reach the bounds
    check as the integer it was. The properties below that reach an index
    outside the array are stated for host data and indices of 64 bits; all
    others are stated for indices inside the array. *)

(** A slice [start:stop] (step 1); [None] is an omitted bound. *)
Record slice : Type := Slice { start : option Z; stop : option Z }.

(** [a:b] and [:]. *)
Definition range_slice (idx : Z * Z) : slice := Slice (Some idx.1) (Some idx.2).
Definition full_slice : slice := Slice None None.

(** A given bound of a slice over a sequence of length [len]: negative bounds
    count from the end, and the bound is clipped into [0, len]. *)
Definition clip_bound (len i : Z) : Z :=
  if i <? 0 then Z.max (i + len) 0 else Z.min i len.

(** [slice.indices(len)]: the first index taken and the first one not taken. *)
Definition slice_indices (s : slice) (len : Z) : Z * Z :=
  (from_option (clip_bound len) 0 (start s),
   from_option (clip_bound len) len (stop s)).

(** Number of elements [s] selects from a sequence of length [len]. *)
Definition slice_length (s : slice) (len : nat) : nat :=
  let '(lo, hi) := slice_indices s (Z.of_nat len) in Z.to_nat (hi - lo).

(** [l[start:stop]]: never raises. *)
Definition getslice {A} (s : slice) (l : list A) : list A :=
  let '(lo, hi) := slice_indices s (Z.of_nat (length l)) in
  take (Z.to_nat (hi - lo)) (drop (Z.to_nat lo) l).

(** An integer index into an axis of length [len]: negative indices count from
    the end; out of range is an [IndexError]. *)
Definition norm_index (len : nat) (i : Z) : result nat :=
  let j := if i <? 0 then i + Z.of_nat len else i in
  if (0 <=? j) && (j <? Z.of_nat len) then Ok (Z.to_nat j) else Raise IndexError.

(** [l[i]]. *)
Definition getitem {A} (i : Z) (l : list A) : result A :=
  j ← norm_index (length l) i;
  match l !! j with
  | Some x => Ok x
  | None => Raise IndexError
  end.

(** ** Arrays *)

(** Where an array lives: a [numpy.ndarray] is on the host, a [jax.Array] on
    the accelerator, where [copy_to_host_async] may have started a transfer. *)
Inductive residence : Type :=
| Host
| Device (copy_started : bool).

(** Residence of an array computed from an array living at [r]. *)
Definition derived (r : residence) : residence :=
  match r with
  | Host => Host
  | Device _ => Device false
  end.

(** A 2-D array of shape [(length rows, ncols)]. *)
Record array2 (A : Type) : Type := Array2 {
  resides2 : residence;
  ncols : nat;
  rows : list (list A)
}.

Arguments Array2 {A} _ _ _.
Arguments resides2 {A} _.
Arguments ncols {A} _.
Arguments rows {A} _.

(** A 1-D array. *)
Record array1 (A : Type) : Type := Array1 {
  resides1 : residence;
  elems : list A
}.

Arguments Array1 {A} _ _.
Arguments resides1 {A} _.
Arguments elems {A} _.

Definition nrows {A} (m : array2 A) : nat := length (rows m).

(** Every row has [ncols] entries. *)
Definition rectangular {A} (m : array2 A) : Prop :=
  Forall (λ r, length r = ncols m) (rows m).

(** [m[rs, cs]] with two slices (basic indexing). *)
Definition index_slice_slice {A} (rs cs : slice) (m : array2 A) : array2 A :=
  Array2 (derived (resides2 m)) (slice_length cs (ncols m))
         (getslice cs <$> getslice rs (rows m)).

(** [m[idx, cs]] with a tuple of integers and a slice: the rows named by
    [idx], in that order, each cut to the columns of [cs]. The [IndexError]
    for an index outside the rows is NumPy's, on host data and for indices
    of 64 bits (see above). *)
Definition index_tuple_slice {A} (idx : list Z) (cs : slice) (m : array2 A)
  : result (array2 A) :=
  picked ← mapM (λ i, getitem i (rows m)) idx;
  Ok (Array2 (derived (resides2 m)) (slice_length cs (ncols m))
             (getslice cs <$> picked)).

(** [m[:, j]]: column [j] as a 1-D array. The index is checked against the
    shape, so it raises on an array without columns even when it has no rows. *)
Definition index_all_int {A} (j : Z) (m : array2 A) : result (array1 A) :=
  _ ← norm_index (ncols m) j;
  col ← mapM (getitem j) (getslice full_slice (rows m));
  Ok (Array1 (derived (resides2 m)) col).

(** [numpy.array(a)]: a host copy with the same shape and entries. *)
Definition np_array {A} (a : array2 A) : array2 A :=
  Array2 Host (ncols a) (rows a).

(** [jax.Array.copy_to_host_async()]: starts the transfer, changes no entry. *)
Definition device_copy_to_host_async {A} (a : array2 A) : array2 A :=
  Array2 (match resides2 a with Host => Host | Device _ => Device true end)
         (ncols a) (rows a).

(** [isinstance(a, np.ndarray)]. *)
Definition is_ndarray {A} (a : array2 A) : bool :=
  match resides2 a with Host => true | Device _ => false end.

(** ** SlotData *)

Module SlotData.

Record t (F : Type) : Type := mk {
  tokens : array2 Z;
  valid : array2 Z;
  lengths : array1 Z;
  log_prob : option (array2 F)
}.

Arguments mk {F} _ _ _ _.
Arguments tokens {F} _.
Arguments valid {F} _.
Arguments lengths {F} _.
Arguments log_prob {F} _.

End SlotData.

(** ** ResultTokens *)

Module ResultTokens.

Record t (F : Type) : Type := mk {
  data : array2 Z;
  tokens_idx : Z * Z;
  valid_idx : Z * Z;
  length_idx : Z * Z;
  samples_per_slot : Z;
  log_prob : option (array2 F)
}.

Arguments mk {F} _ _ _ _ _ _.
Arguments data {F} _.
Arguments tokens_idx {F} _.
Arguments valid_idx {F} _.
Arguments length_idx {F} _.
Arguments samples_per_slot {F} _.
Arguments log_prob {F} _.

Section methods.
Context {F : Type}.

(** Returns [None]; the second component is the object after the call. *)
Definition copy_to_host_async (self : t F) : unit * t F :=
  if is_ndarray (data self) then (tt, self)
  else (tt, mk (device_copy_to_host_async (data self)) (tokens_idx self)
               (valid_idx self) (length_idx self) (samples_per_slot self)
               (log_prob self)).

Definition convert_to_numpy (self : t F) : t F :=
  mk (np_array (data self)) (tokens_idx self) (valid_idx self)
     (length_idx self) (samples_per_slot self) (log_prob self).

Definition get_result_at_slot (self : t F) (slot : Z) : result (SlotData.t F) :=
  let start_idx := slot * samples_per_slot self in
  let end_idx := (slot + 1) * samples_per_slot self in
  let rs := range_slice (start_idx, end_idx) in
  lengths ← index_all_int 0
    (index_slice_slice rs (range_slice (length_idx self)) (data self));
  Ok (SlotData.mk
        (index_slice_slice rs (range_slice (tokens_idx self)) (data self))
        (index_slice_slice rs (range_slice (valid_idx self)) (data self))
        lengths
        None).

Definition get_result_at_slots (self : t F) (slots : list Z)
  : result (SlotData.t F) :=
  tokens ← index_tuple_slice slots (range_slice (tokens_idx self)) (data self);
  valid ← index_tuple_slice slots (range_slice (valid_idx self)) (data self);
  lengths ← index_tuple_slice slots (range_slice (length_idx self)) (data self)
            ≫= index_all_int 0;
  log_prob ← match log_prob self with
             | Some lp => Some <$> index_tuple_slice slots full_slice lp
             | None => Ok None
             end;
  Ok (SlotData.mk tokens valid lengths log_prob).

End methods.

End ResultTokens.

(** ** The executor contract *)

(** The values the API leaves to the executor ([Any] in the source), the
    caller-supplied sampler and request id, and the one function of another
    module the contract calls. *)
Class EngineTypes : Type := {
  Any : Type;
  Params : Type;
  Prefix : Type;
  DecodeState : Type;
  DeviceTokens : Type;
  CpuDevices : Type;
  Tokenizer : Type;
  PRNGKeyType : Type;
  Sampler : Type;
  UUID : Type;
  TokenizerParameters : Type;
  Mesh : Type;
  Args : Type;
  LogProb : Type;
  SentencePieceTokenizer : TokenizerParameters → result Tokenizer
}.

(** An optional argument at a call site: left out, or passed. *)
Inductive kwarg (A : Type) : Type :=
| Omitted
| Passed (a : A).

Arguments Omitted {A}.
Arguments Passed {A} a.

(** Binding an optional argument to a parameter with default [d]. *)
Definition bind_default {A} (d : A) (k : kwarg A) : A :=
  match k with
  | Omitted => d
  | Passed a => a
  end.

(** A method on an object with state [St]: it returns a value or raises, and
    leaves the object in a new state either way. *)
Definition M (St A : Type) : Type := St → result A * St.

Definition raise {St A} (e : exn) : M St A := λ st, (Raise e, st).

Section api.
Context {T : EngineTypes}.

Record ExistingPrefix : Type := {
  cache : Any;
  common_prefix_tokens : DeviceTokens
}.

Definition Tokens : Type := ResultTokens.t LogProb.

(** The operations of an executor, as a caller sees them: every optional
    parameter of the abstract signature may be passed or left out. *)
Record Engine (St : Type) : Type := {
  prefill :
    ∀ (params : Params) (existing_prefix : kwarg (option ExistingPrefix))
      (padded_tokens : DeviceTokens) (true_length : Z)
      (sampler : kwarg (option Sampler)) (request_id : kwarg (option UUID)),
      M St (Prefix * Tokens);
  prefill_multisampling :
    ∀ (params : Params) (existing_prefix : kwarg (option DeviceTokens))
      (padded_tokens : DeviceTokens) (true_length : Z)
      (sampler : kwarg (option Sampler)) (rng : kwarg (option PRNGKeyType))
      (num_samples : kwarg Z),
      M St (Prefix * Tokens);
  generate :
    ∀ (params : Params) (decode_state : DecodeState)
      (sampler : kwarg (option Sampler)),
      M St (DecodeState * Tokens);
  insert :
    ∀ (prefix : Prefix) (decode_state : DecodeState) (slot : Z)
      (request_id : kwarg (option UUID)),
      M St DecodeState;
  bulk_insert :
    ∀ (prefix : Prefix) (decode_state : DecodeState) (slots : list Z),
      M St DecodeState;
  free_resource : ∀ (slot : Z), M St (option Any);
  load_params : Args → M St Params;
  get_prefix_destination_sharding : M St Any;
  get_tokenizer : M St TokenizerParameters;
  build_tokenizer : ∀ (metadata : TokenizerParameters), M St Tokenizer;
  init_decode_state : Args → M St DecodeState;
  max_concurrent_decodes : M St Z;
  samples_per_slot : M St Z;
  max_prefill_length : M St Z;
  mesh : M St Mesh;
  colocated_cpus : M St (option (list CpuDevices));
  use_chunked_prefill : M St bool;
  prefill_chunk_size : M St Z
}.

(** The two methods [Engine] gives a body to. *)
Definition Engine_free_resource {St} (slot : Z) : M St (option Any) :=
  λ st, (Ok None, st).

Definition Engine_build_tokenizer {St} (metadata : TokenizerParameters)
  : M St Tokenizer :=
  λ st, (SentencePieceTokenizer metadata, st).

(** ** JetStreamEngine *)

(** Objects are held by reference: [loc] names an executor object, and the
    heap gives the current state of each. *)
Definition loc : Type := nat.

Record JetStreamEngine (Buckets : Type) : Type := {
  _downstream_engine : loc;
  prefill_buckets : option Buckets;
  warm : bool
}.

Arguments _downstream_engine {Buckets} _.
Arguments prefill_buckets {Buckets} _.
Arguments warm {Buckets} _.

Record World (Buckets St : Type) : Type := {
  this : JetStreamEngine Buckets;
  heap : loc → St
}.

Arguments this {Buckets St} _.
Arguments heap {Buckets St} _.

Section facade.
Context {Buckets St : Type} (E : Engine St).

Definition JetStreamEngine_init (downstream_engine : loc)
  : JetStreamEngine Buckets :=
  {| _downstream_engine := downstream_engine;
     prefill_buckets := None;
     warm := false |}.

(** A method call on [self._downstream_engine]. *)
Definition on_downstream {A} (m : M St A) : M (World Buckets St) A := λ w,
  let l := _downstream_engine (this w) in
  let '(r, st) := m (heap w l) in
  (r, {| this := this w; heap := <[l := st]> (heap w) |}).

(** The wrapper's [prefill] has no [sampler] and no [request_id] parameter,
    and does not hand [existing_prefix] on. *)
Definition JetStreamEngine_prefill (params : Params)
    (existing_prefix : kwarg (option ExistingPrefix))
    (padded_tokens : DeviceTokens) (true_length : Z)
    (sampler : kwarg (option Sampler)) (request_id : kwarg (option UUID))
  : M (World Buckets St) (Prefix * Tokens) :=
  match sampler, request_id with
  | Omitted, Omitted =>
      on_downstream
        (prefill St E params Omitted padded_tokens true_length Omitted Omitted)
  | _, _ => raise TypeError
  end.

Definition JetStreamEngine_prefill_multisampling (params : Params)
    (existing_prefix : kwarg (option DeviceTokens))
    (padded_tokens : DeviceTokens) (true_length : Z)
    (sampler : kwarg (option Sampler)) (rng : kwarg (option PRNGKeyType))
    (num_samples : kwarg Z)
  : M (World Buckets St) (Prefix * Tokens) :=
  on_downstream
    (prefill_multisampling St E params
       (Passed (bind_default None existing_prefix))
       padded_tokens true_length
       (Passed (bind_default None sampler))
       (Passed (bind_default None rng))
       (Passed (bind_default 1 num_samples))).

Definition JetStreamEngine_insert (prefix : Prefix)
    (decode_state : DecodeState) (slot : Z) (request_id : kwarg (option UUID))
  : M (World Buckets St) DecodeState :=
  on_downstream
    (insert St E prefix decode_state slot
       (Passed (bind_default None request_id))).

Definition JetStreamEngine_bulk_insert (prefix : Prefix)
    (decode_state : DecodeState) (slots : list Z)
  : M (World Buckets St) DecodeState :=
  on_downstream (bulk_insert St E prefix decode_state slots).

(** The wrapper's [generate] has no [sampler] parameter. *)
Definition JetStreamEngine_generate (params : Params)
    (decode_state : DecodeState) (sampler : kwarg (option Sampler))
  : M (World Buckets St) (DecodeState * Tokens) :=
  match sampler with
  | Omitted => on_downstream (generate St E params decode_state Omitted)
  | Passed _ => raise TypeError
  end.

Definition JetStreamEngine_load_params (args : Args) : M (World Buckets St) Params :=
  on_downstream (load_params St E args).

Definition JetStreamEngine_get_prefix_destination_sharding : M (World Buckets St) Any :=
  on_downstream (get_prefix_destination_sharding St E).

Definition JetStreamEngine_get_tokenizer : M (World Buckets St) TokenizerParameters :=
  on_downstream (get_tokenizer St E).

Definition JetStreamEngine_build_tokenizer (metadata : TokenizerParameters)
  : M (World Buckets St) Tokenizer :=
  on_downstream (build_tokenizer St E metadata).

Definition JetStreamEngine_init_decode_state (args : Args) : M (World Buckets St) DecodeState :=
  on_downstream (init_decode_state St E args).

(** The wrapper as an [Engine]: [free_resource] is not defined in the class,
    so it is the one inherited from [Engine]. *)
Definition JetStreamEngine_class : Engine (World Buckets St) := {|
  prefill := JetStreamEngine_prefill;
  prefill_multisampling := JetStreamEngine_prefill_multisampling;
  generate := JetStreamEngine_generate;
  insert := JetStreamEngine_insert;
  bulk_insert := JetStreamEngine_bulk_insert;
  free_resource := Engine_free_resource;
  load_params := JetStreamEngine_load_params;
  get_prefix_destination_sharding :=
    JetStreamEngine_get_prefix_destination_sharding;
  get_tokenizer := JetStreamEngine_get_tokenizer;
  build_tokenizer := JetStreamEngine_build_tokenizer;
  init_decode_state := JetStreamEngine_init_decode_state;
  max_concurrent_decodes := on_downstream (max_concurrent_decodes St E);
  samples_per_slot := on_downstream (samples_per_slot St E);
  max_prefill_length := on_downstream (max_prefill_length St E);
  mesh := on_downstream (mesh St E);
  colocated_cpus := on_downstream (colocated_cpus St E);
  use_chunked_prefill := on_downstream (use_chunked_prefill St E);
  prefill_chunk_size := on_downstream (prefill_chunk_size St E)
|}.

End facade.

(** ** Sequences of calls *)

(** One call of an operation of the contract, with its arguments. *)
Inductive call : Type :=
| call_prefill (params : Params)
    (existing_prefix : kwarg (option ExistingPrefix))
    (padded_tokens : DeviceTokens) (true_length : Z)
    (sampler : kwarg (option Sampler)) (request_id : kwarg (option UUID))
| call_prefill_multisampling (params : Params)
    (existing_prefix : kwarg (option DeviceTokens))
    (padded_tokens : DeviceTokens) (true_length : Z)
    (sampler : kwarg (option Sampler)) (rng : kwarg (option PRNGKeyType))
    (num_samples : kwarg Z)
| call_generate (params : Params) (decode_state : DecodeState)
    (sampler : kwarg (option Sampler))
| call_insert (prefix : Prefix) (decode_state : DecodeState) (slot : Z)
    (request_id : kwarg (option UUID))
| call_bulk_insert (prefix : Prefix) (decode_state : DecodeState)
    (slots : list Z)
| call_free_resource (slot : Z)
| call_load_params (args : Args)
| call_get_prefix_destination_sharding
| call_get_tokenizer
| call_build_tokenizer (metadata : TokenizerParameters)
| call_init_decode_state (args : Args)
| read_max_concurrent_decodes
| read_samples_per_slot
| read_max_prefill_length
| read_mesh
| read_colocated_cpus
| read_use_chunked_prefill
| read_prefill_chunk_size.

(** What a call gives back. *)
Inductive value : Type :=
| v_prefill (r : Prefix * Tokens)
| v_generate (r : DecodeState * Tokens)
| v_decode_state (d : DecodeState)
| v_free (r : option Any)
| v_params (p : Params)
| v_any (a : Any)
| v_tokenizer_parameters (p : TokenizerParameters)
| v_tokenizer (t : Tokenizer)
| v_int (n : Z)
| v_mesh (m : Mesh)
| v_cpus (c : option (list CpuDevices))
| v_bool (b : bool).

Definition returning {St A} (inj : A → value) (m : M St A) : M St value :=
  λ st, let '(r, st') := m st in (inj <$> r, st').

(** Method dispatch on an object of class [E]. *)
Definition invoke {St} (E : Engine St) (c : call) : M St value :=
  match c with
  | call_prefill p ep t n s r => returning v_prefill (prefill St E p ep t n s r)
  | call_prefill_multisampling p ep t n s g k =>
      returning v_prefill (prefill_multisampling St E p ep t n s g k)
  | call_generate p d s => returning v_generate (generate St E p d s)
  | call_insert p d s r => returning v_decode_state (insert St E p d s r)
  | call_bulk_insert p d ss =>
      returning v_decode_state (bulk_insert St E p d ss)
  | call_free_resource s => returning v_free (free_resource St E s)
  | call_load_params a => returning v_params (load_params St E a)
  | call_get_prefix_destination_sharding =>
      returning v_any (get_prefix_destination_sharding St E)
  | call_get_tokenizer =>
      returning v_tokenizer_parameters (get_tokenizer St E)
  | call_build_tokenizer m => returning v_tokenizer (build_tokenizer St E m)
  | call_init_decode_state a =>
      returning v_decode_state (init_decode_state St E a)
  | read_max_concurrent_decodes =>
      returning v_int (max_concurrent_decodes St E)
  | read_samples_per_slot => returning v_int (samples_per_slot St E)
  | read_max_prefill_length => returning v_int (max_prefill_length St E)
  | read_mesh => returning v_mesh (mesh St E)
  | read_colocated_cpus => returning v_cpus (colocated_cpus St E)
  | read_use_chunked_prefill => returning v_bool (use_chunked_prefill St E)
  | read_prefill_chunk_size => returning v_int (prefill_chunk_size St E)
  end.

(** The calls of [cs] in turn, each on the state the one before left; a raised
    exception is that call's outcome and the caller goes on. *)
Fixpoint run {St} (E : Engine St) (cs : list call) (st : St)
  : list (result value) * St :=
  match cs with
  | [] => ([], st)
  | c :: cs' =>
      let '(r, st') := invoke E c st in
      let '(rs, st'') := run E cs' st' in
      (r :: rs, st'')
  end.

End api.

Arguments _downstream_engine {Buckets} _.
Arguments prefill_buckets {Buckets} _.
Arguments warm {Buckets} _.
Arguments this {Buckets St} _.
Arguments heap {Buckets St} _.

(** ** What the specification says of the buffer *)

(** Entry [(i, j)] of a matrix. *)
Definition entry (m : array2 Z) (i j : nat) : Z :=
  nth j (nth i (rows m) []) 0.

(** The sub-matrix over the rows [[r0, r1)] and the columns [[c0, c1)]. *)
Definition submatrix (m : array2 Z) (r0 r1 c0 c1 : Z) : list (list Z) :=
  (λ i, (λ j, entry m i j) <$> seq (Z.to_nat c0) (Z.to_nat (c1 - c0)))
    <$> seq (Z.to_nat r0) (Z.to_nat (r1 - r0)).

(** Column [c] over the rows [[r0, r1)], as a vector. *)
Definition column (m : array2 Z) (r0 r1 c : Z) : list Z :=
  (λ i, entry m i (Z.to_nat c)) <$> seq (Z.to_nat r0) (Z.to_nat (r1 - r0)).

(** The rows of [m] named by [idx], in that order. *)
Definition gathered {A} (m : array2 A) (idx : list Z) : list (list A) :=
  (λ i, nth (Z.to_nat i) (rows m) []) <$> idx.

(** The row indices a slot owns: [slot * samples_per_slot] and the
    [samples_per_slot - 1] after it. *)
Definition slot_rows {F} (r : ResultTokens.t F) (slot : Z) : list Z :=
  Z.of_nat <$> seq (Z.to_nat (slot * ResultTokens.samples_per_slot r))
                   (Z.to_nat (ResultTokens.samples_per_slot r)).

(** A half-open column range that lies inside the width of [m]. *)
Definition in_width (idx : Z * Z) (m : array2 Z) : Prop :=
  0 ≤ idx.1 ∧ idx.1 ≤ idx.2 ∧ idx.2 ≤ Z.of_nat (ncols m).

(** The shape the data model gives a buffer for [max_concurrent_decodes]
    slots: [max_concurrent_decodes * samples_per_slot] rows of one width, the
    three column ranges inside that width, at least one length column, and a
    [log_prob] with a row for each row of [data]. *)
Record well_formed {F} (r : ResultTokens.t F) (max_concurrent_decodes : Z)
  : Prop := {
  wf_rectangular : rectangular (ResultTokens.data r);
  wf_samples : 0 < ResultTokens.samples_per_slot r;
  wf_rows : Z.of_nat (nrows (ResultTokens.data r))
            = max_concurrent_decodes * ResultTokens.samples_per_slot r;
  wf_tokens : in_width (ResultTokens.tokens_idx r) (ResultTokens.data r);
  wf_valid : in_width (ResultTokens.valid_idx r) (ResultTokens.data r);
  wf_length : in_width (ResultTokens.length_idx r) (ResultTokens.data r);
  wf_length_column : (ResultTokens.length_idx r).1 < (ResultTokens.length_idx r).2;
  wf_log_prob : ∀ lp, ResultTokens.log_prob r = Some lp →
                nrows lp = nrows (ResultTokens.data r)
}.

(** Slots of the batch. *)
Definition valid_slots (max_concurrent_decodes : Z) (slots : list Z) : Prop :=
  Forall (λ s, 0 ≤ s < max_concurrent_decodes) slots.

(** Row-wise concatenation ([concatenate] along axis 0) of arrays of one
    width, and of the [SlotData] of two gathers from one buffer. *)
Definition vstack {A} (a b : array2 A) : array2 A :=
  Array2 (resides2 a) (ncols a) (rows a ++ rows b).

Definition concat1 {A} (a b : array1 A) : array1 A :=
  Array1 (resides1 a) (elems a ++ elems b).

Definition SlotData_concat {F} (a b : SlotData.t F) : SlotData.t F :=
  SlotData.mk (vstack (SlotData.tokens a) (SlotData.tokens b))
              (vstack (SlotData.valid a) (SlotData.valid b))
              (concat1 (SlotData.lengths a) (SlotData.lengths b))
              (match SlotData.log_prob a, SlotData.log_prob b with
               | Some la, Some lb => Some (vstack la lb)
               | _, _ => None
               end).

(** ** Sample buffers *)

(** The buffer of the specification's example: four slots of one sample,
    one column each for token, validity and length. *)
Definition example_buffer : ResultTokens.t Z :=
  ResultTokens.mk (Array2 Host 3 [[5; 1; 3]; [7; 1; 1]; [0; 0; 0]; [9; 1; 5]])
                  (0, 1) (1, 2) (2, 3) 1 None.

(** Two slots of two samples each, with log probabilities. *)
Definition two_sample_buffer : ResultTokens.t Z :=
  ResultTokens.mk
    (Array2 Host 3 [[10; 1; 1]; [11; 1; 1]; [12; 1; 2]; [13; 0; 2]])
    (0, 1) (1, 2) (2, 3) 2
    (Some (Array2 Host 1 [[-1]; [-2]; [-3]; [-4]])).

(** A device-resident buffer whose length range spans two columns. *)
Definition device_buffer : ResultTokens.t Z :=
  ResultTokens.mk
    (Array2 (Device false) 4 [[10; 1; 4; 4]; [11; 1; 6; 6]; [12; 0; 0; 0]])
    (0, 1) (1, 2) (2, 4) 1
    (Some (Array2 (Device false) 1 [[-1]; [-2]; [-3]])).

(** ** A sample executor *)

(** Integers for the values the contract leaves open. *)
#[global] Instance sample_types : EngineTypes := {|
  Any := Z;
  Params := unit;
  Prefix := Z;
  DecodeState := Z;
  DeviceTokens := list Z;
  CpuDevices := unit;
  Tokenizer := unit;
  PRNGKeyType := Z;
  Sampler := Z;
  UUID := Z;
  TokenizerParameters := unit;
  Mesh := unit;
  Args := unit;
  LogProb := Z;
  SentencePieceTokenizer := λ _, Ok tt
|}.

(** The one-row buffer a step returns for token [t]. *)
Definition token_buffer (t : Z) : ResultTokens.t Z :=
  ResultTokens.mk (Array2 (Device false) 3 [[t; 1; 1]])
                  (0, 1) (1, 2) (2, 3) 1 None.

(** Appends a call to the record of calls received. *)
Definition record_call {A} (c : call) (a : A) : M (list call) A :=
  λ log, (Ok a, log ++ [c]).

(** An executor that records every call it receives. Its prefix is the true
    length plus the cache of the existing prefix, its token is the sampler's
    choice (0 without sampler), and it keeps a resource per slot that
    [free_resource] gives back. *)
Definition recording_engine : Engine (list call) := {|
  prefill := λ params existing_prefix padded_tokens true_length sampler
               request_id,
    record_call
      (call_prefill params existing_prefix padded_tokens true_length sampler
                    request_id)
      (true_length + from_option cache 0 (bind_default None existing_prefix),
       token_buffer (default 0 (bind_default None sampler)));
  prefill_multisampling := λ params existing_prefix padded_tokens true_length
                             sampler rng num_samples,
    record_call
      (call_prefill_multisampling params existing_prefix padded_tokens
                                  true_length sampler rng num_samples)
      (true_length, token_buffer (default 0 (bind_default None sampler)));
  generate := λ params decode_state sampler,
    record_call (call_generate params decode_state sampler)
      (decode_state + 1, token_buffer (default 0 (bind_default None sampler)));
  insert := λ prefix decode_state slot request_id,
    record_call (call_insert prefix decode_state slot request_id)
      (decode_state + prefix);
  bulk_insert := λ prefix decode_state slots,
    record_call (call_bulk_insert prefix decode_state slots)
      (decode_state + prefix);
  free_resource := λ slot, record_call (call_free_resource slot) (Some slot);
  load_params := λ args, record_call (call_load_params args) tt;
  get_prefix_destination_sharding :=
    record_call call_get_prefix_destination_sharding 0;
  get_tokenizer := record_call call_get_tokenizer tt;
  build_tokenizer := λ metadata,
    record_call (call_build_tokenizer metadata) tt;
  init_decode_state := λ args, record_call (call_init_decode_state args) 0;
  max_concurrent_decodes := record_call read_max_concurrent_decodes 4;
  samples_per_slot := record_call read_samples_per_slot 1;
  max_prefill_length := record_call read_max_prefill_length 1024;
  mesh := record_call read_mesh tt;
  colocated_cpus := record_call read_colocated_cpus None;
  use_chunked_prefill := record_call read_use_chunked_prefill false;
  prefill_chunk_size := record_call read_prefill_chunk_size 256
|}.

(** A wrapper around the recording executor, which lives at location 0 and
    has received no call yet. *)
Definition fresh_world : World unit (list call) :=
  {| this := JetStreamEngine_init 0%nat; heap := λ _, [] |}.

(** The calls the wrapper hands to the wrapped executor as it received them:
    [prefill] without [existing_prefix], [sampler] and [request_id],
    [generate] without [sampler], [prefill_multisampling] and [insert] with
    every optional argument passed, and every other operation but
    [free_resource]. *)
Definition handed_on `{EngineTypes} (c : call) : bool :=
  match c with
  | call_prefill _ Omitted _ _ Omitted Omitted => true
  | call_prefill _ _ _ _ _ _ => false
  | call_prefill_multisampling _ (Passed _) _ _ (Passed _) (Passed _)
                               (Passed _) => true
  | call_prefill_multisampling _ _ _ _ _ _ _ => false
  | call_generate _ _ Omitted => true
  | call_generate _ _ (Passed _) => false
  | call_insert _ _ _ (Passed _) => true
  | call_insert _ _ _ Omitted => false
  | call_free_resource _ => false
  | _ => true
  end.

(** ** Further definitions for the properties of the code *)

(** [numpy.array] of a 1-D array. *)
Definition np_array1 {A} (a : array1 A) : array1 A :=
  Array1 Host (elems a).

(** The [SlotData] with [numpy.array] applied to tokens, valid and lengths,
    and log_prob as it is. *)
Definition SlotData_to_numpy {F} (sd : SlotData.t F) : SlotData.t F :=
  SlotData.mk (np_array (SlotData.tokens sd)) (np_array (SlotData.valid sd))
              (np_array1 (SlotData.lengths sd)) (SlotData.log_prob sd).

(** The slots [0, ..., max_concurrent_decodes - 1]. *)
Definition all_slots (max_concurrent_decodes : Z) : list Z :=
  Z.of_nat <$> seq 0 (Z.to_nat max_concurrent_decodes).

(** An integer index outside an axis of length [len]. *)
Definition out_of_range (len : nat) (i : Z) : Prop :=
  i < - Z.of_nat len ∨ Z.of_nat len ≤ i.

(** A buffer whose length range holds no column. *)
Definition no_length_buffer : ResultTokens.t Z :=
  ResultTokens.mk (Array2 Host 2 [[5; 1]; [7; 1]]) (0, 1) (1, 2) (2, 2) 1 None.

(** A buffer whose tokens and valid ranges are the same column. *)
Definition overlapping_buffer : ResultTokens.t Z :=
  ResultTokens.mk (Array2 Host 2 [[5; 3]; [7; 1]]) (0, 1) (0, 1) (1, 2) 1 None.

(** A buffer whose tokens range runs past its three columns. *)
Definition wide_range_buffer : ResultTokens.t Z :=
  ResultTokens.mk (Array2 Host 3 [[5; 1; 3]; [7; 1; 1]]) (0, 10) (1, 2) (2, 3)
                  1 None.

(** The example buffer with other rows around the row of slot 1. *)
Definition other_rows_buffer : ResultTokens.t Z :=
  ResultTokens.mk (Array2 Host 3 [[8; 1; 9]; [7; 1; 1]; [6; 1; 2]; [0; 0; 0]])
                  (0, 1) (1, 2) (2, 3) 1 None.

(** An executor binds its optional parameters as the signatures of [Engine]
    declare them: an omitted argument is the default ([None], and 1 for
    [num_samples]). *)
Definition binds_defaults `{EngineTypes} {St} (E : Engine St) : Prop :=
  (∀ p ep t n s r st,
     prefill St E p ep t n s r st
     = prefill St E p (Passed (bind_default None ep)) t n
               (Passed (bind_default None s)) (Passed (bind_default None r)) st)
  ∧ (∀ p ep t n s g k st,
       prefill_multisampling St E p ep t n s g k st
       = prefill_multisampling St E p (Passed (bind_default None ep)) t n
           (Passed (bind_default None s)) (Passed (bind_default None g))
           (Passed (bind_default 1 k)) st)
  ∧ (∀ p d s st,
       generate St E p d s st
       = generate St E p d (Passed (bind_default None s)) st)
  ∧ (∀ p d s r st,
       insert St E p d s r st
       = insert St E p d s (Passed (bind_default None r)) st).

(** The calls that reach such an executor with the arguments the caller
    meant: [prefill] without existing prefix (omitted or [None]), sampler and
    request id, [generate] without sampler, and every other operation but
    [free_resource]. *)
Definition forwarded `{EngineTypes} (c : call) : bool :=
  match c with
  | call_prefill _ (Omitted | Passed None) _ _ Omitted Omitted => true
  | call_prefill _ _ _ _ _ _ => false
  | call_generate _ _ Omitted => true
  | call_generate _ _ (Passed _) => false
  | call_free_resource _ => false
  | _ => true
  end.

(** An executor that counts the calls it receives and binds its optional
    parameters to the defaults of [Engine]. *)
Definition count_call {A} (a : A) : M Z A := λ n, (Ok a, n + 1).

Definition counting_engine : Engine Z := {|
  prefill := λ params existing_prefix padded_tokens true_length sampler
               request_id,
    count_call
      (true_length + from_option cache 0 (bind_default None existing_prefix),
       token_buffer (default 0 (bind_default None sampler)));
  prefill_multisampling := λ params existing_prefix padded_tokens true_length
                             sampler rng num_samples,
    count_call
      (true_length * bind_default 1 num_samples,
       token_buffer (default 0 (bind_default None sampler)));
  generate := λ params decode_state sampler,
    count_call
      (decode_state + 1, token_buffer (default 0 (bind_default None sampler)));
  insert := λ prefix decode_state slot request_id,
    count_call (decode_state + prefix + default 0 (bind_default None request_id));
  bulk_insert := λ prefix decode_state slots, count_call (decode_state + prefix);
  free_resource := Engine_free_resource;
  load_params := λ args, count_call tt;
  get_prefix_destination_sharding := count_call 0;
  get_tokenizer := count_call tt;
  build_tokenizer := Engine_build_tokenizer;
  init_decode_state := λ args, count_call 0;
  max_concurrent_decodes := count_call 4;
  samples_per_slot := count_call 1;
  max_prefill_length := count_call 1024;
  mesh := count_call tt;
  colocated_cpus := count_call None;
  use_chunked_prefill := count_call false;
  prefill_chunk_size := count_call 256
|}.

(** A wrapper around the counting executor at location 0. *)
Definition counting_world : World unit Z :=
  {| this := JetStreamEngine_init 0%nat; heap := λ _, 0 |}.

(** ** Slices and items of lists *)

Section indexing.
Context {A : Type}.
Implicit Types (l : list A) (a b : Z) (n : nat).

Lemma slice_indices_range a b (len : Z) :
  0 ≤ a → a ≤ b → b ≤ len →
  slice_indices (range_slice (a, b)) len = (a, b).
Proof.
  intros Ha Hab Hb. unfold slice_indices, range_slice, clip_bound. simpl.
  destruct (Z.ltb_spec a 0), (Z.ltb_spec b 0); try lia.
  f_equal; lia.
Qed.

Lemma getslice_range l a b :
  0 ≤ a → a ≤ b → b ≤ Z.of_nat (length l) →
  getslice (range_slice (a, b)) l
  = take (Z.to_nat (b - a)) (drop (Z.to_nat a) l).
Proof.
  intros Ha Hab Hb. unfold getslice.
  by rewrite slice_indices_range.
Qed.

Lemma slice_length_range a b n :
  0 ≤ a → a ≤ b → b ≤ Z.of_nat n →
  slice_length (range_slice (a, b)) n = Z.to_nat (b - a).
Proof.
  intros Ha Hab Hb. unfold slice_length.
  by rewrite slice_indices_range.
Qed.

Lemma getslice_full l : getslice full_slice l = l.
Proof.
  unfold getslice, slice_indices, full_slice. simpl.
  rewrite Z.sub_0_r, Nat2Z.id. by rewrite take_ge.
Qed.

Lemma fmap_getslice_full (ls : list (list A)) :
  getslice full_slice <$> ls = ls.
Proof.
  induction ls as [|l ls IH]; [done|].
  by rewrite fmap_cons, getslice_full, IH.
Qed.

Lemma slice_length_full n : slice_length full_slice n = n.
Proof.
  unfold slice_length, slice_indices, full_slice. simpl. lia.
Qed.

Lemma length_getslice_range l a b :
  0 ≤ a → a ≤ b → b ≤ Z.of_nat (length l) →
  length (getslice (range_slice (a, b)) l) = Z.to_nat (b - a).
Proof.
  intros Ha Hab Hb. rewrite getslice_range by done.
  rewrite length_take, length_drop. lia.
Qed.

(** A slice of consecutive positions, read position by position. *)
Lemma take_drop_nth (d : A) l (i n : nat) :
  (i + n ≤ length l)%nat →
  take n (drop i l) = (λ k, nth k l d) <$> seq i n.
Proof.
  revert i. induction n as [|n IH]; intros i Hi; [done|].
  destruct (lookup_lt_is_Some_2 l i) as [x Hx]; [lia|].
  rewrite (drop_S _ _ _ Hx). simpl.
  rewrite (nth_lookup_Some _ _ _ _ Hx). f_equal.
  apply IH. lia.
Qed.

Lemma getitem_nat l (i : nat) x :
  l !! i = Some x → getitem (Z.of_nat i) l = Ok x.
Proof.
  intros Hx. pose proof (lookup_lt_Some _ _ _ Hx) as Hlt.
  unfold getitem, norm_index.
  destruct (Z.ltb_spec (Z.of_nat i) 0); [lia|].
  destruct (Z.leb_spec 0 (Z.of_nat i)); [|lia].
  destruct (Z.ltb_spec (Z.of_nat i) (Z.of_nat (length l))); [|lia].
  simpl. by rewrite Nat2Z.id, Hx.
Qed.

Lemma getitem_in_range (d : A) l (i : Z) :
  0 ≤ i → i < Z.of_nat (length l) →
  getitem i l = Ok (nth (Z.to_nat i) l d).
Proof.
  intros H0 Hlt.
  destruct (lookup_lt_is_Some_2 l (Z.to_nat i)) as [x Hx]; [lia|].
  rewrite (nth_lookup_Some _ _ _ _ Hx).
  rewrite <- (Z2Nat.id i) at 1 by done. by apply getitem_nat.
Qed.

End indexing.

(** ** [mapM] in the [result] monad *)

Section mapM.
Context {A B : Type}.
Implicit Types (f : A → result B) (g : A → B) (l : list A).

Lemma mapM_Ok f g l :
  Forall (λ x, f x = Ok (g x)) l → mapM f l = Ok (g <$> l).
Proof.
  induction 1 as [|x l Hx _ IH]; [done|].
  simpl. rewrite Hx. simpl. by rewrite IH.
Qed.

End mapM.

(** ** Indexing of arrays *)

Lemma derived_idemp r : derived (derived r) = derived r.
Proof. by destruct r. Qed.

Lemma rectangular_nth {A} (m : array2 A) (i : nat) :
  rectangular m → (i < nrows m)%nat → length (nth i (rows m) []) = ncols m.
Proof.
  intros Hm Hi. destruct (lookup_lt_is_Some_2 (rows m) i Hi) as [r Hr].
  rewrite (nth_lookup_Some _ _ _ _ Hr).
  by apply (proj1 (Forall_lookup _ _) Hm i r).
Qed.

(** Two slices cut out the sub-matrix of the specification. *)
Lemma index_slice_slice_submatrix (m : array2 Z) (r0 r1 c0 c1 : Z) :
  rectangular m →
  0 ≤ r0 → r0 ≤ r1 → r1 ≤ Z.of_nat (nrows m) →
  0 ≤ c0 → c0 ≤ c1 → c1 ≤ Z.of_nat (ncols m) →
  index_slice_slice (range_slice (r0, r1)) (range_slice (c0, c1)) m
  = Array2 (derived (resides2 m)) (Z.to_nat (c1 - c0))
           (submatrix m r0 r1 c0 c1).
Proof.
  intros Hm Hr0 Hr01 Hr1 Hc0 Hc01 Hc1. unfold index_slice_slice.
  rewrite slice_length_range by done. f_equal.
  rewrite getslice_range by done.
  rewrite (take_drop_nth []) by (unfold nrows in Hr1; lia).
  rewrite <- list_fmap_compose. unfold submatrix.
  apply Forall_fmap_ext, Forall_forall. intros i Hi.
  apply in_seq in Hi. simpl.
  assert (length (nth i (rows m) []) = ncols m) as Hlen
    by (apply rectangular_nth; [done | lia]).
  rewrite getslice_range by (rewrite ?Hlen; done).
  apply take_drop_nth. lia.
Qed.

(** Column 0 of a matrix that has a column. *)
Lemma index_all_int_0 (m : array2 Z) :
  rectangular m → (0 < ncols m)%nat →
  index_all_int 0 m
  = Ok (Array1 (derived (resides2 m)) ((λ r, nth 0 r 0) <$> rows m)).
Proof.
  intros Hm Hc. unfold index_all_int, norm_index. simpl.
  destruct (Z.ltb_spec 0 (Z.of_nat (ncols m))); [|lia]. simpl.
  rewrite getslice_full.
  rewrite (mapM_Ok _ (λ r, nth 0 r 0)); [done|].
  eapply Forall_impl; [|exact Hm]. intros r Hr. simpl in Hr.
  apply (getitem_in_range 0 r 0); lia.
Qed.

Lemma submatrix_rectangular res (m : array2 Z) (r0 r1 c0 c1 : Z) :
  rectangular (Array2 res (Z.to_nat (c1 - c0)) (submatrix m r0 r1 c0 c1)).
Proof.
  unfold rectangular, submatrix. simpl.
  apply Forall_fmap, Forall_forall. intros i _. simpl.
  by rewrite length_fmap, length_seq.
Qed.

Lemma submatrix_column_0 (m : array2 Z) (r0 r1 c0 c1 : Z) :
  0 ≤ c0 → c0 < c1 →
  (λ r, nth 0 r 0) <$> submatrix m r0 r1 c0 c1 = column m r0 r1 c0.
Proof.
  intros Hc0 Hc. unfold submatrix, column.
  rewrite <- list_fmap_compose.
  apply Forall_fmap_ext, Forall_forall. intros i _. simpl.
  destruct (Z.to_nat (c1 - c0)) as [|k] eqn:Hk; [lia|]. done.
Qed.

(** A tuple of row indices inside the array picks those rows. *)
Lemma index_tuple_slice_gathered {A} (idx : list Z) (cs : slice) (m : array2 A) :
  Forall (λ i, 0 ≤ i < Z.of_nat (nrows m)) idx →
  index_tuple_slice idx cs m
  = Ok (Array2 (derived (resides2 m)) (slice_length cs (ncols m))
               (getslice cs <$> gathered m idx)).
Proof.
  intros Hidx. unfold index_tuple_slice, gathered.
  rewrite (mapM_Ok _ (λ i, nth (Z.to_nat i) (rows m) [])); [done|].
  eapply Forall_impl; [|exact Hidx]. intros i Hi. simpl in Hi.
  apply getitem_in_range; unfold nrows in Hi; lia.
Qed.

(** The rows of consecutive indices are the rows of the slice. *)
Lemma gathered_consecutive {A} (m : array2 A) (i n : nat) :
  (i + n ≤ nrows m)%nat →
  gathered m (Z.of_nat <$> seq i n) = take n (drop i (rows m)).
Proof.
  intros Hi. unfold gathered. rewrite (take_drop_nth []) by done.
  rewrite <- list_fmap_compose.
  apply Forall_fmap_ext, Forall_forall. intros k _. simpl.
  by rewrite Nat2Z.id.
Qed.

(** ** The rows of a slot *)

Section slot.
Context {F : Type}.
Implicit Types (r : ResultTokens.t F) (slot : Z).

(** The row range of a slot of the batch lies inside the buffer. *)
Lemma slot_range r (max_concurrent_decodes : Z) slot :
  well_formed r max_concurrent_decodes →
  0 ≤ slot < max_concurrent_decodes →
  0 ≤ slot * ResultTokens.samples_per_slot r
  ∧ slot * ResultTokens.samples_per_slot r
    ≤ (slot + 1) * ResultTokens.samples_per_slot r
  ∧ (slot + 1) * ResultTokens.samples_per_slot r
    ≤ Z.of_nat (nrows (ResultTokens.data r)).
Proof.
  intros Hwf Hslot. destruct Hwf as [_ Hs Hrows _ _ _ _ _].
  rewrite Hrows. nia.
Qed.

(** [get_result_at_slot] written out on a well-formed buffer. *)
Lemma get_result_at_slot_unfold r (max_concurrent_decodes : Z) slot :
  well_formed r max_concurrent_decodes →
  0 ≤ slot < max_concurrent_decodes →
  let d := ResultTokens.data r in
  let s := ResultTokens.samples_per_slot r in
  let block idx :=
    Array2 (derived (resides2 d)) (Z.to_nat (idx.2 - idx.1))
           (submatrix d (slot * s) ((slot + 1) * s) idx.1 idx.2) in
  ResultTokens.get_result_at_slot r slot
  = Ok (SlotData.mk
          (block (ResultTokens.tokens_idx r))
          (block (ResultTokens.valid_idx r))
          (Array1 (derived (resides2 d))
                  (column d (slot * s) ((slot + 1) * s)
                          (ResultTokens.length_idx r).1))
          None).
Proof.
  intros Hwf Hslot d s block.
  destruct (slot_range r _ slot Hwf Hslot) as (Hr0 & Hr01 & Hr1).
  destruct Hwf as [Hrect _ _ (Ht0 & Ht01 & Ht1) (Hv0 & Hv01 & Hv1)
                     (Hl0 & Hl01 & Hl1) Hl _].
  unfold ResultTokens.get_result_at_slot.
  destruct (ResultTokens.tokens_idx r) as [t0 t1] eqn:Et.
  destruct (ResultTokens.valid_idx r) as [v0 v1] eqn:Ev.
  destruct (ResultTokens.length_idx r) as [l0 l1] eqn:El.
  simpl in *.
  rewrite !index_slice_slice_submatrix by done.
  rewrite index_all_int_0;
    [|apply submatrix_rectangular | simpl; lia].
  simpl. by rewrite derived_idemp, submatrix_column_0 by lia.
Qed.

End slot.

(** ** The rows of a tuple of slots *)

Section slots.
Context {F : Type}.
Implicit Types (r : ResultTokens.t F) (slots idx : list Z).

(** With at least one sample per slot, a slot of the batch is a row index. *)
Lemma valid_slots_rows r (max_concurrent_decodes : Z) slots :
  well_formed r max_concurrent_decodes →
  valid_slots max_concurrent_decodes slots →
  Forall (λ i, 0 ≤ i < Z.of_nat (nrows (ResultTokens.data r))) slots.
Proof.
  intros Hwf Hs. destruct Hwf as [_ Hsamples Hrows _ _ _ _ _].
  eapply Forall_impl; [|exact Hs]. intros i Hi. simpl in Hi.
  rewrite Hrows. nia.
Qed.

(** The rows of a slot are row indices of the buffer. *)
Lemma slot_rows_in_range r (max_concurrent_decodes : Z) (slot : Z) :
  well_formed r max_concurrent_decodes →
  0 ≤ slot < max_concurrent_decodes →
  Forall (λ i, 0 ≤ i < Z.of_nat (nrows (ResultTokens.data r)))
         (slot_rows r slot).
Proof.
  intros Hwf Hslot.
  destruct (slot_range r _ slot Hwf Hslot) as (Hr0 & Hr01 & Hr1).
  unfold slot_rows. apply Forall_fmap, Forall_forall. intros k Hk.
  apply in_seq in Hk. simpl. lia.
Qed.

Lemma gathered_row_length {A} (m : array2 A) idx :
  rectangular m →
  Forall (λ i, 0 ≤ i < Z.of_nat (nrows m)) idx →
  Forall (λ row, length row = ncols m) (gathered m idx).
Proof.
  intros Hm Hidx. unfold gathered. apply Forall_fmap.
  eapply Forall_impl; [|exact Hidx]. intros i Hi. simpl in *.
  apply rectangular_nth; [done | lia].
Qed.

(** [get_result_at_slots] written out for row indices inside the buffer. *)
Lemma get_result_at_slots_unfold r (max_concurrent_decodes : Z) idx :
  well_formed r max_concurrent_decodes →
  Forall (λ i, 0 ≤ i < Z.of_nat (nrows (ResultTokens.data r))) idx →
  let d := ResultTokens.data r in
  let picked cs :=
    Array2 (derived (resides2 d)) (slice_length cs (ncols d))
           (getslice cs <$> gathered d idx) in
  ResultTokens.get_result_at_slots r idx
  = Ok (SlotData.mk
          (picked (range_slice (ResultTokens.tokens_idx r)))
          (picked (range_slice (ResultTokens.valid_idx r)))
          (Array1 (derived (resides2 d))
             ((λ row, nth 0 row 0)
                <$> rows (picked (range_slice (ResultTokens.length_idx r)))))
          ((λ lp, Array2 (derived (resides2 lp)) (ncols lp) (gathered lp idx))
             <$> ResultTokens.log_prob r)).
Proof.
  intros Hwf Hidx d picked.
  destruct Hwf as [Hrect _ _ _ _ (Hl0 & Hl01 & Hl1) Hl Hlp].
  unfold ResultTokens.get_result_at_slots.
  rewrite !index_tuple_slice_gathered by done. simpl.
  destruct (ResultTokens.length_idx r) as [l0 l1] eqn:El. simpl in *.
  rewrite index_all_int_0; simpl.
  - rewrite derived_idemp.
    destruct (ResultTokens.log_prob r) as [lp|] eqn:Elp; simpl; [|done].
    rewrite index_tuple_slice_gathered
      by (rewrite (Hlp lp eq_refl); exact Hidx).
    simpl. by rewrite slice_length_full, fmap_getslice_full.
  - unfold rectangular. simpl. apply Forall_fmap.
    eapply Forall_impl; [|exact (gathered_row_length d idx Hrect Hidx)].
    intros row Hrow. simpl in *.
    rewrite slice_length_range by done.
    apply length_getslice_range; [done..|]. by rewrite Hrow.
  - rewrite slice_length_range by done. lia.
Qed.

(** A tuple naming the rows of one slot picks what the two slices cut out. *)
Lemma index_tuple_slice_slot r (max_concurrent_decodes : Z) (slot : Z)
    (cs : slice) :
  well_formed r max_concurrent_decodes →
  0 ≤ slot < max_concurrent_decodes →
  let s := ResultTokens.samples_per_slot r in
  index_tuple_slice (slot_rows r slot) cs (ResultTokens.data r)
  = Ok (index_slice_slice (range_slice (slot * s, (slot + 1) * s)) cs
                          (ResultTokens.data r)).
Proof.
  intros Hwf Hslot s.
  destruct (slot_range r _ slot Hwf Hslot) as (Hr0 & Hr01 & Hr1).
  rewrite index_tuple_slice_gathered by by eapply slot_rows_in_range.
  unfold index_slice_slice, slot_rows. do 3 f_equal.
  rewrite gathered_consecutive by lia.
  rewrite getslice_range by done.
  do 2 f_equal. subst s. lia.
Qed.

(** With one sample per slot, a slot owns the row of its own index. *)
Lemma slot_rows_single r (slot : Z) :
  0 ≤ slot → ResultTokens.samples_per_slot r = 1 → slot_rows r slot = [slot].
Proof.
  intros Hslot Hs. unfold slot_rows. rewrite Hs. simpl.
  rewrite Z.mul_1_r. f_equal. lia.
Qed.

End slots.

(** ** Properties of the result buffer *)

Lemma example_buffer_well_formed : well_formed example_buffer 4.
Proof.
  split; try (intros ? [=]); try (repeat split; simpl; lia).
  repeat constructor.
Qed.

Lemma two_sample_buffer_well_formed : well_formed two_sample_buffer 2.
Proof.
  split; try (intros ? [= <-]; reflexivity);
    try (repeat split; simpl; lia).
  repeat constructor.
Qed.

Lemma device_buffer_well_formed : well_formed device_buffer 3.
Proof.
  split; try (intros ? [= <-]; reflexivity);
    try (repeat split; simpl; lia).
  repeat constructor.
Qed.

(** C2 fails on the code. Both accessors document their argument as slots
    of the batch, and [get_result_at_slot] takes the rows
    [[slot * samples_per_slot, (slot + 1) * samples_per_slot)] of a slot;
    [get_result_at_slots] leaves the factor [samples_per_slot] out and takes
    its arguments as row indices. With two samples per slot,
    [get_result_at_slot 1] returns rows 2 and 3 of the buffer, the two
    samples of slot 1, while [get_result_at_slots [1]] returns row 1 alone,
    the second sample of slot 0. *)
Lemma get_result_at_slot_vs_slots_counterexample :
  well_formed two_sample_buffer 2 ∧ 0 ≤ 1 < 2
  ∧ ∃ sd sds,
      ResultTokens.get_result_at_slot two_sample_buffer 1 = Ok sd
      ∧ ResultTokens.get_result_at_slots two_sample_buffer [1] = Ok sds
      ∧ rows (SlotData.tokens sd) = [[12]; [13]]
      ∧ rows (SlotData.tokens sds) = [[11]]
      ∧ SlotData.tokens sd ≠ SlotData.tokens sds
      ∧ SlotData.valid sd ≠ SlotData.valid sds
      ∧ SlotData.lengths sd ≠ SlotData.lengths sds.
Proof.
  split; [exact two_sample_buffer_well_formed|]. split; [lia|].
  eexists _, _. split; [vm_compute; reflexivity|].
  split; [vm_compute; reflexivity|]. simpl.
  repeat split; try reflexivity; intros [=].
Qed.

(** On the code as it is: [get_result_at_slot slot] returns exactly
    [samples_per_slot] rows on a well-formed buffer, and [get_result_at_slots]
    returns these rows, field for field (tokens, valid, lengths), when it is
    given the row indices
    [slot * samples_per_slot, ..., (slot + 1) * samples_per_slot - 1]; only
    with one sample per slot are those the tuple [(slot,)]. *)
Theorem get_result_at_slot_rows {F} (r : ResultTokens.t F)
    (max_concurrent_decodes slot : Z) :
  well_formed r max_concurrent_decodes →
  0 ≤ slot < max_concurrent_decodes →
  ∃ sd,
    ResultTokens.get_result_at_slot r slot = Ok sd
    ∧ Z.of_nat (nrows (SlotData.tokens sd)) = ResultTokens.samples_per_slot r
    ∧ Z.of_nat (nrows (SlotData.valid sd)) = ResultTokens.samples_per_slot r
    ∧ Z.of_nat (length (elems (SlotData.lengths sd)))
      = ResultTokens.samples_per_slot r
    ∧ (∃ sds,
         ResultTokens.get_result_at_slots r (slot_rows r slot) = Ok sds
         ∧ SlotData.tokens sd = SlotData.tokens sds
         ∧ SlotData.valid sd = SlotData.valid sds
         ∧ SlotData.lengths sd = SlotData.lengths sds)
    ∧ (ResultTokens.samples_per_slot r = 1 →
       ∃ sds,
         ResultTokens.get_result_at_slots r [slot] = Ok sds
         ∧ SlotData.tokens sd = SlotData.tokens sds
         ∧ SlotData.valid sd = SlotData.valid sds
         ∧ SlotData.lengths sd = SlotData.lengths sds).
Proof.
  intros Hwf Hslot.
  pose proof (get_result_at_slot_unfold r _ slot Hwf Hslot) as Hone.
  destruct (slot_range r _ slot Hwf Hslot) as (Hr0 & Hr01 & Hr1).
  assert (∃ sds,
    ResultTokens.get_result_at_slots r (slot_rows r slot) = Ok sds
    ∧ ∀ sd, ResultTokens.get_result_at_slot r slot = Ok sd →
        SlotData.tokens sd = SlotData.tokens sds
        ∧ SlotData.valid sd = SlotData.valid sds
        ∧ SlotData.lengths sd = SlotData.lengths sds) as (sds & Hsds & Heq).
  { revert Hone.
    unfold ResultTokens.get_result_at_slots, ResultTokens.get_result_at_slot.
    rewrite !(index_tuple_slice_slot r _ slot _ Hwf Hslot). simpl.
    destruct (index_all_int 0 _) as [lengths|e]; [intros _|done]. simpl.
    destruct (ResultTokens.log_prob r) as [lp|] eqn:Elp.
    - rewrite index_tuple_slice_gathered.
      + simpl. eexists. split; [done|]. by intros sd [= <-].
      + rewrite (wf_log_prob _ _ Hwf lp Elp). by eapply slot_rows_in_range.
    - simpl. eexists. split; [done|]. by intros sd [= <-]. }
  eexists. split; [exact Hone|]. simpl.
  unfold nrows, submatrix, column. simpl.
  rewrite !length_fmap, !length_seq.
  repeat split; try lia.
  - exists sds. split; [done|]. exact (Heq _ Hone).
  - intros Hs. exists sds.
    rewrite <- (slot_rows_single r slot) by (done || lia).
    split; [done|]. exact (Heq _ Hone).
Qed.

Lemma get_result_at_slot_rows_witness :
  ∃ sd,
    ResultTokens.get_result_at_slot two_sample_buffer 1 = Ok sd
    ∧ Z.of_nat (nrows (SlotData.tokens sd)) = 2
    ∧ ∃ sds,
        ResultTokens.get_result_at_slots two_sample_buffer [2; 3] = Ok sds
        ∧ SlotData.tokens sd = SlotData.tokens sds.
Proof.
  destruct (get_result_at_slot_rows two_sample_buffer 2 1
              two_sample_buffer_well_formed ltac:(lia))
    as (sd & Hsd & Hn & _ & _ & (sds & Hsds & Ht & _) & _).
  exists sd. split; [exact Hsd|]. split; [exact Hn|].
  exists sds. split; [exact Hsds | exact Ht].
Defined.

(** C3. On a well-formed buffer and for a slot of the batch,
    [get_result_at_slot slot] returns the [SlotData] whose tokens and valid
    are the sub-matrices of [data] over the rows
    [[slot * samples_per_slot, (slot + 1) * samples_per_slot)] and the columns
    of [tokens_idx] and [valid_idx], and whose lengths is the vector read from
    the first column of the [length_idx] range over those rows, however many
    columns that range spans. On the example buffer of the specification,
    slot 1 gives tokens [[7]], valid [[1]], lengths [1], and slot 2 gives
    tokens [[0]], valid [[0]], lengths [0]. *)
Theorem get_result_at_slot_submatrix :
  (∀ F (r : ResultTokens.t F) (max_concurrent_decodes slot : Z),
     well_formed r max_concurrent_decodes →
     0 ≤ slot < max_concurrent_decodes →
     let d := ResultTokens.data r in
     let r0 := slot * ResultTokens.samples_per_slot r in
     let r1 := (slot + 1) * ResultTokens.samples_per_slot r in
     ∃ sd,
       ResultTokens.get_result_at_slot r slot = Ok sd
       ∧ rows (SlotData.tokens sd)
         = submatrix d r0 r1 (ResultTokens.tokens_idx r).1
                     (ResultTokens.tokens_idx r).2
       ∧ rows (SlotData.valid sd)
         = submatrix d r0 r1 (ResultTokens.valid_idx r).1
                     (ResultTokens.valid_idx r).2
       ∧ elems (SlotData.lengths sd)
         = column d r0 r1 (ResultTokens.length_idx r).1)
  ∧ (∃ sd,
       ResultTokens.get_result_at_slot example_buffer 1 = Ok sd
       ∧ rows (SlotData.tokens sd) = [[7]]
       ∧ rows (SlotData.valid sd) = [[1]]
       ∧ elems (SlotData.lengths sd) = [1])
  ∧ (∃ sd,
       ResultTokens.get_result_at_slot example_buffer 2 = Ok sd
       ∧ rows (SlotData.tokens sd) = [[0]]
       ∧ rows (SlotData.valid sd) = [[0]]
       ∧ elems (SlotData.lengths sd) = [0]).
Proof.
  split; [|split].
  - intros F r mcd slot Hwf Hslot d r0 r1.
    eexists. split; [by eapply get_result_at_slot_unfold|]. done.
  - eexists. split; [vm_compute; reflexivity|]. done.
  - eexists. split; [vm_compute; reflexivity|]. done.
Qed.

Lemma get_result_at_slot_submatrix_witness :
  ∃ sd,
    ResultTokens.get_result_at_slot device_buffer 1 = Ok sd
    ∧ rows (SlotData.tokens sd) = [[11]]
    ∧ rows (SlotData.valid sd) = [[1]]
    ∧ elems (SlotData.lengths sd) = [6].
Proof.
  destruct (proj1 get_result_at_slot_submatrix Z device_buffer 3 1
              device_buffer_well_formed ltac:(lia))
    as (sd & Hsd & Ht & Hv & Hl).
  exists sd. split; [exact Hsd|].
  split; [exact Ht|]. split; [exact Hv | exact Hl].
Defined.

(** C4. On a well-formed buffer, for lists [A] and [B] of slots of the batch
    (disjoint or not), [get_result_at_slots (A ++ B)] is the row-wise
    concatenation, in that order, of [get_result_at_slots A] and
    [get_result_at_slots B], in tokens, valid, lengths and, when the buffer
    has one, log_prob. *)
Theorem get_result_at_slots_app {F} (r : ResultTokens.t F)
    (max_concurrent_decodes : Z) (A B : list Z) :
  well_formed r max_concurrent_decodes →
  valid_slots max_concurrent_decodes A →
  valid_slots max_concurrent_decodes B →
  ∃ sdA sdB,
    ResultTokens.get_result_at_slots r A = Ok sdA
    ∧ ResultTokens.get_result_at_slots r B = Ok sdB
    ∧ ResultTokens.get_result_at_slots r (A ++ B)
      = Ok (SlotData_concat sdA sdB).
Proof.
  intros Hwf HA HB.
  pose proof (valid_slots_rows r _ A Hwf HA) as HA'.
  pose proof (valid_slots_rows r _ B Hwf HB) as HB'.
  assert (Forall (λ i, 0 ≤ i < Z.of_nat (nrows (ResultTokens.data r)))
                 (A ++ B)) as HAB by by apply Forall_app.
  eexists _, _.
  split; [by eapply get_result_at_slots_unfold|].
  split; [by eapply get_result_at_slots_unfold|].
  rewrite (get_result_at_slots_unfold r _ (A ++ B) Hwf HAB).
  unfold SlotData_concat, vstack, concat1, gathered. simpl.
  rewrite !fmap_app.
  by destruct (ResultTokens.log_prob r); simpl; rewrite ?fmap_app.
Qed.

Lemma get_result_at_slots_app_witness :
  ∃ sdA sdB,
    ResultTokens.get_result_at_slots two_sample_buffer [1] = Ok sdA
    ∧ ResultTokens.get_result_at_slots two_sample_buffer [0] = Ok sdB
    ∧ ResultTokens.get_result_at_slots two_sample_buffer ([1] ++ [0])
      = Ok (SlotData_concat sdA sdB).
Proof.
  apply (get_result_at_slots_app two_sample_buffer 2 [1] [0]
           two_sample_buffer_well_formed).
  - repeat constructor; lia.
  - repeat constructor; lia.
Defined.

(** C5. [convert_to_numpy] applied twice gives what it gives applied once;
    its result has the [tokens_idx], [valid_idx], [length_idx] and
    [samples_per_slot] of the buffer it was applied to, and a host-resident
    data array of the same shape and the same entries. *)
Theorem convert_to_numpy_idempotent {F} (r : ResultTokens.t F) :
  let c := ResultTokens.convert_to_numpy r in
  ResultTokens.convert_to_numpy c = c
  ∧ ResultTokens.tokens_idx c = ResultTokens.tokens_idx r
  ∧ ResultTokens.valid_idx c = ResultTokens.valid_idx r
  ∧ ResultTokens.length_idx c = ResultTokens.length_idx r
  ∧ ResultTokens.samples_per_slot c = ResultTokens.samples_per_slot r
  ∧ is_ndarray (ResultTokens.data c) = true
  ∧ ncols (ResultTokens.data c) = ncols (ResultTokens.data r)
  ∧ rows (ResultTokens.data c) = rows (ResultTokens.data r).
Proof. by repeat split. Qed.

(** C6. On a buffer whose data is a numpy array, [copy_to_host_async]
    returns [None] and leaves every field of the buffer as it was. *)
Theorem copy_to_host_async_host {F} (r : ResultTokens.t F) :
  is_ndarray (ResultTokens.data r) = true →
  ResultTokens.copy_to_host_async r = (tt, r).
Proof.
  intros Hhost. unfold ResultTokens.copy_to_host_async. by rewrite Hhost.
Qed.

Lemma copy_to_host_async_host_witness :
  ResultTokens.copy_to_host_async two_sample_buffer = (tt, two_sample_buffer).
Proof.
  apply (copy_to_host_async_host two_sample_buffer). reflexivity.
Defined.

(** On a device array the call does change the buffer: the transfer is
    started. *)
Lemma copy_to_host_async_device :
  (ResultTokens.copy_to_host_async device_buffer).2 ≠ device_buffer.
Proof. intros [=]. Qed.



(** C10. Whatever the buffer and the slot, the [SlotData] that
    [get_result_at_slot] returns has no log_prob, also when the buffer has
    one; and on a well-formed buffer, for a slot of the batch, it does
    return one. *)
Theorem get_result_at_slot_no_log_prob {F} (r : ResultTokens.t F) (slot : Z) :
  (∀ sd, ResultTokens.get_result_at_slot r slot = Ok sd →
         SlotData.log_prob sd = None)
  ∧ (∀ max_concurrent_decodes,
       well_formed r max_concurrent_decodes →
       0 ≤ slot < max_concurrent_decodes →
       ∃ sd, ResultTokens.get_result_at_slot r slot = Ok sd
             ∧ SlotData.log_prob sd = None).
Proof.
  split.
  - unfold ResultTokens.get_result_at_slot. simpl. intros sd.
    destruct (index_all_int 0 _) as [lengths|e]; [|done].
    by intros [= <-].
  - intros mcd Hwf Hslot.
    eexists. split; [by eapply get_result_at_slot_unfold|]. done.
Qed.

Lemma get_result_at_slot_no_log_prob_witness :
  ResultTokens.log_prob two_sample_buffer ≠ None
  ∧ ∃ sd,
      ResultTokens.get_result_at_slot two_sample_buffer 1 = Ok sd
      ∧ SlotData.log_prob sd = None.
Proof.
  split; [discriminate|].
  apply (proj2 (get_result_at_slot_no_log_prob two_sample_buffer 1) 2
               two_sample_buffer_well_formed).
  lia.
Defined.

(** ** Properties of the wrapper *)

Section wrapper.
Context {T : EngineTypes} {Buckets St : Type} (E : Engine St).
Implicit Types (w : World Buckets St) (c : call) (cs : list call).



Lemma returning_on_downstream {A} (inj : A → value) (m : M St A) w :
  returning inj (on_downstream (Buckets := Buckets) m) w
  = on_downstream (returning inj m) w.
Proof. unfold returning, on_downstream. by destruct (m _). Qed.



(** A call the wrapper hands on as it received it has the outcome of the same
    call made on the wrapped executor. *)
Lemma invoke_handed_on c w :
  handed_on c = true →
  invoke (JetStreamEngine_class (Buckets := Buckets) E) c w
  = on_downstream (invoke E c) w.
Proof.
  intros Hc.
  destruct c; simpl in Hc; try done;
    repeat match goal with
           | k : kwarg _ |- _ => destruct k; try done
           end;
    apply returning_on_downstream.
Qed.

End wrapper.

(** C1 fails on the code. The wrapper's [prefill] takes [existing_prefix] and
    does not pass it on: the recording executor is asked for a prefill without
    existing prefix and answers with prefix 3, where it answers 10 when called
    with the caller's arguments. The wrapper's [prefill] and [generate] have
    no [sampler] parameter (and [prefill] no [request_id]): a call with one
    raises [TypeError] and never reaches the executor, which called directly
    returns the sampler's token. The wrapper's [free_resource] is the
    inherited one and does not reach the executor either. *)
Theorem JetStreamEngine_prefill_generate_diverge :
  let facade := JetStreamEngine_class recording_engine in
  let ep := {| cache := 7; common_prefix_tokens := [1; 2] |} in
  ((prefill _ facade tt (Passed (Some ep)) [1; 2; 3] 3 Omitted Omitted
            fresh_world).1 = Ok (3, token_buffer 0)
   ∧ (prefill _ recording_engine tt (Passed (Some ep)) [1; 2; 3] 3 Omitted
              Omitted []).1 = Ok (10, token_buffer 0))
  ∧ ((prefill _ facade tt Omitted [1; 2; 3] 3 (Passed (Some 42)) Omitted
              fresh_world) = (Raise TypeError, fresh_world)
     ∧ (prefill _ recording_engine tt Omitted [1; 2; 3] 3 (Passed (Some 42))
                Omitted []).1 = Ok (3, token_buffer 42))
  ∧ ((prefill _ facade tt Omitted [1; 2; 3] 3 Omitted (Passed (Some 99))
              fresh_world) = (Raise TypeError, fresh_world)
     ∧ (prefill _ recording_engine tt Omitted [1; 2; 3] 3 Omitted
                (Passed (Some 99)) []).1 = Ok (3, token_buffer 0))
  ∧ ((generate _ facade tt 5 (Passed (Some 42)) fresh_world)
     = (Raise TypeError, fresh_world)
     ∧ (generate _ recording_engine tt 5 (Passed (Some 42)) []).1
       = Ok (6, token_buffer 42))
  ∧ ((free_resource _ facade 2 fresh_world) = (Ok None, fresh_world)
     ∧ free_resource _ recording_engine 2 []
       = (Ok (Some 2), [call_free_resource 2])).
Proof. repeat split. Qed.

(** C8. The [free_resource] of [Engine] returns [None] and changes nothing,
    on every slot and for every class that does not override it; the wrapper
    is such a class, so its [free_resource] leaves the wrapper and the wrapped
    executor as they were, whatever the executor's own [free_resource]
    does. *)
Theorem free_resource_default {T : EngineTypes} :
  (∀ St (E : Engine St),
     free_resource St E = Engine_free_resource →
     ∀ (slot : Z) (st : St), free_resource St E slot st = (Ok None, st))
  ∧ (∀ Buckets St (E : Engine St) (slot : Z) (w : World Buckets St),
       free_resource _ (JetStreamEngine_class (Buckets := Buckets) E)
       = Engine_free_resource
       ∧ free_resource _ (JetStreamEngine_class E) slot w = (Ok None, w)).
Proof.
  split.
  - intros St E -> slot st. done.
  - done.
Qed.

Lemma free_resource_default_witness :
  free_resource _ (JetStreamEngine_class recording_engine) 2 fresh_world
  = (Ok None, fresh_world)
  ∧ free_resource _ recording_engine 2 [] = (Ok (Some 2), [call_free_resource 2]).
Proof.
  split; [|reflexivity].
  apply (proj1 free_resource_default _ (JetStreamEngine_class recording_engine)).
  reflexivity.
Defined.


(** ** Edge and error behaviour of the accessors *)

Section edges.
Context {A : Type}.
Implicit Types (l : list A) (idx : list Z).

(** A slice that starts at or after the end, or runs from a negative start to
    0, selects nothing. *)
Lemma getslice_range_empty l (a b : Z) :
  (Z.of_nat (length l) ≤ a ∧ a ≤ b) ∨ (a < 0 ∧ b = 0) →
  getslice (range_slice (a, b)) l = [].
Proof.
  intros H. unfold getslice, slice_indices, range_slice, clip_bound. simpl.
  destruct (Z.ltb_spec a 0), (Z.ltb_spec b 0);
    (replace (Z.to_nat _) with 0%nat by lia); done.
Qed.

Lemma getitem_raise l (i : Z) e : getitem i l = Raise e → e = IndexError.
Proof.
  unfold getitem, norm_index.
  destruct (_ && _); simpl; [|by intros [= <-]].
  destruct (l !! _); [done | by intros [= <-]].
Qed.

Lemma getitem_out_of_range l (i : Z) :
  out_of_range (length l) i → getitem i l = Raise IndexError.
Proof.
  intros H. unfold getitem, norm_index, out_of_range in *.
  destruct (Z.ltb_spec i 0).
  - destruct (Z.leb_spec 0 (i + Z.of_nat (length l))); [lia | done].
  - destruct (Z.ltb_spec i (Z.of_nat (length l))); [lia|].
    by rewrite andb_false_r.
Qed.

(** A negative index counts from the end. *)
Lemma getitem_negative l (i : Z) :
  0 ≤ i → i < Z.of_nat (length l) →
  getitem (i - Z.of_nat (length l)) l = getitem i l.
Proof.
  intros H0 Hlt. unfold getitem, norm_index.
  destruct (Z.ltb_spec (i - Z.of_nat (length l)) 0); [|lia].
  destruct (Z.ltb_spec i 0); [lia|].
  by replace (i - Z.of_nat (length l) + Z.of_nat (length l)) with i by lia.
Qed.

Lemma mapM_getitem_raise l idx e :
  mapM (λ i, getitem i l) idx = Raise e → e = IndexError.
Proof.
  induction idx as [|i idx IH]; [done|]. simpl.
  destruct (getitem i l) as [x|e'] eqn:Hx; simpl.
  - destruct (mapM _ idx) as [xs|e'']; simpl; [done|].
    intros [= <-]. by apply IH.
  - intros [= <-]. by eapply getitem_raise.
Qed.

Lemma mapM_getitem_out_of_range l idx :
  Exists (out_of_range (length l)) idx →
  mapM (λ i, getitem i l) idx = Raise IndexError.
Proof.
  induction 1 as [i idx Hi | i idx _ IH]; simpl.
  - by rewrite getitem_out_of_range.
  - destruct (getitem i l) as [x|e] eqn:Hx; simpl.
    + by rewrite IH.
    + by rewrite (getitem_raise _ _ _ Hx).
Qed.

Lemma mapM_getitem_negative l idx :
  Forall (λ i, 0 ≤ i < Z.of_nat (length l)) idx →
  mapM (λ i, getitem i l) ((λ i, i - Z.of_nat (length l)) <$> idx)
  = mapM (λ i, getitem i l) idx.
Proof.
  induction 1 as [|i idx Hi _ IH]; [done|].
  rewrite fmap_cons. simpl.
  rewrite getitem_negative by lia. by rewrite IH.
Qed.

End edges.

Section array_edges.
Context {A : Type}.
Implicit Types (m : array2 A) (idx : list Z).

Lemma index_tuple_slice_raise idx (cs : slice) m e :
  index_tuple_slice idx cs m = Raise e → e = IndexError.
Proof.
  unfold index_tuple_slice.
  destruct (mapM _ idx) as [picked|e'] eqn:Hp; simpl; [done|].
  intros [= <-]. exact (mapM_getitem_raise _ _ _ Hp).
Qed.

Lemma index_tuple_slice_out_of_range idx (cs : slice) m :
  Exists (out_of_range (nrows m)) idx →
  index_tuple_slice idx cs m = Raise IndexError.
Proof.
  intros H. unfold index_tuple_slice.
  by rewrite mapM_getitem_out_of_range.
Qed.

Lemma index_tuple_slice_negative idx (cs : slice) m :
  Forall (λ i, 0 ≤ i < Z.of_nat (nrows m)) idx →
  index_tuple_slice ((λ i, i - Z.of_nat (nrows m)) <$> idx) cs m
  = index_tuple_slice idx cs m.
Proof.
  intros H. unfold index_tuple_slice, nrows.
  by rewrite mapM_getitem_negative.
Qed.

(** Column 0 of an array without columns. *)
Lemma index_all_int_no_column m :
  ncols m = 0%nat → index_all_int 0 m = Raise IndexError.
Proof. intros H. unfold index_all_int, norm_index. by rewrite H. Qed.

End array_edges.

(** X1. A slot past the end of the batch, and the slot -1, are not errors for
    [get_result_at_slot]: the row slice selects nothing and the call returns
    a [SlotData] without rows. *)
Theorem get_result_at_slot_outside_batch {F} (r : ResultTokens.t F)
    (max_concurrent_decodes slot : Z) :
  well_formed r max_concurrent_decodes →
  slot = -1 ∨ max_concurrent_decodes ≤ slot →
  ∃ sd,
    ResultTokens.get_result_at_slot r slot = Ok sd
    ∧ rows (SlotData.tokens sd) = []
    ∧ rows (SlotData.valid sd) = []
    ∧ elems (SlotData.lengths sd) = [].
Proof.
  intros Hwf Hslot.
  destruct Hwf as [_ Hs Hrows _ _ (Hl0 & Hl01 & Hl1) Hl _].
  assert (getslice
            (range_slice (slot * ResultTokens.samples_per_slot r,
                          (slot + 1) * ResultTokens.samples_per_slot r))
            (rows (ResultTokens.data r)) = []) as Hempty.
  { apply getslice_range_empty. unfold nrows in Hrows.
    destruct Hslot as [-> | Hslot]; [right | left]; nia. }
  unfold ResultTokens.get_result_at_slot, index_slice_slice, index_all_int,
    norm_index.
  rewrite Hempty.
  destruct (ResultTokens.length_idx r) as [l0 l1]. simpl in *.
  rewrite slice_length_range by done.
  destruct (Z.ltb_spec 0 (Z.of_nat (Z.to_nat (l1 - l0)))); [|lia].
  simpl. by eexists.
Qed.

Lemma get_result_at_slot_outside_batch_witness :
  ∃ sd,
    ResultTokens.get_result_at_slot two_sample_buffer (-1) = Ok sd
    ∧ rows (SlotData.tokens sd) = []
    ∧ rows (SlotData.valid sd) = []
    ∧ elems (SlotData.lengths sd) = [].
Proof.
  apply (get_result_at_slot_outside_batch two_sample_buffer 2 (-1)
           two_sample_buffer_well_formed).
  by left.
Defined.

(** X2. [get_result_at_slots] takes negative indices from the end of the
    buffer: with [n] rows, the tuple of the [i - n] gives what the tuple of
    the [i] gives. *)
Theorem get_result_at_slots_negative {F} (r : ResultTokens.t F)
    (max_concurrent_decodes : Z) (idx : list Z) :
  well_formed r max_concurrent_decodes →
  Forall (λ i, 0 ≤ i < Z.of_nat (nrows (ResultTokens.data r))) idx →
  ResultTokens.get_result_at_slots r
    ((λ i, i - Z.of_nat (nrows (ResultTokens.data r))) <$> idx)
  = ResultTokens.get_result_at_slots r idx.
Proof.
  intros Hwf Hidx. unfold ResultTokens.get_result_at_slots.
  rewrite !index_tuple_slice_negative by done.
  destruct (ResultTokens.log_prob r) as [lp|] eqn:Elp; [|done].
  rewrite <- (wf_log_prob _ _ Hwf lp Elp) in *.
  by rewrite index_tuple_slice_negative.
Qed.

Lemma get_result_at_slots_negative_witness :
  ResultTokens.get_result_at_slots two_sample_buffer [-1; -4]
  = ResultTokens.get_result_at_slots two_sample_buffer [3; 0].
Proof.
  apply (get_result_at_slots_negative two_sample_buffer 2 [3; 0]
           two_sample_buffer_well_formed).
  repeat constructor; simpl; lia.
Defined.

(** X3. On host data, [get_result_at_slots] raises [IndexError] as soon as
    one index of a tuple of 64-bit indices lies outside the rows of the
    buffer. *)
Theorem get_result_at_slots_out_of_range {F} (r : ResultTokens.t F)
    (slots : list Z) :
  is_ndarray (ResultTokens.data r) = true →
  Forall (λ i, - 2 ^ 63 ≤ i < 2 ^ 63) slots →
  Exists (out_of_range (nrows (ResultTokens.data r))) slots →
  ResultTokens.get_result_at_slots r slots = Raise IndexError.
Proof.
  intros _ _ H. unfold ResultTokens.get_result_at_slots.
  by rewrite (index_tuple_slice_out_of_range slots
                (range_slice (ResultTokens.tokens_idx r)) _ H).
Qed.

Lemma get_result_at_slots_out_of_range_witness :
  ResultTokens.get_result_at_slots two_sample_buffer [1; 4] = Raise IndexError.
Proof.
  apply (get_result_at_slots_out_of_range two_sample_buffer [1; 4]).
  - reflexivity.
  - repeat (constructor; [lia|]). constructor.
  - apply Exists_cons_tl, Exists_cons_hd.
    unfold out_of_range, nrows. simpl. lia.
Defined.

(** X4. When the length range selects no column of the buffer, both accessors
    raise [IndexError]: [get_result_at_slot] on every slot, and
    [get_result_at_slots] on every tuple of indices inside the buffer, where
    the rows are found and reading their length column fails. *)
Theorem accessors_without_length_column {F} (r : ResultTokens.t F) :
  slice_length (range_slice (ResultTokens.length_idx r))
               (ncols (ResultTokens.data r)) = 0%nat →
  (∀ slot, ResultTokens.get_result_at_slot r slot = Raise IndexError)
  ∧ (∀ slots,
       Forall (λ i, - Z.of_nat (nrows (ResultTokens.data r)) ≤ i
                    < Z.of_nat (nrows (ResultTokens.data r))) slots →
       ResultTokens.get_result_at_slots r slots = Raise IndexError).
Proof.
  intros Hw. split.
  - intros slot. unfold ResultTokens.get_result_at_slot.
    by rewrite index_all_int_no_column.
  - intros slots _.
    unfold ResultTokens.get_result_at_slots, index_tuple_slice.
    destruct (mapM _ slots) as [picked|e] eqn:Hp; simpl.
    + by rewrite index_all_int_no_column.
    + by rewrite (mapM_getitem_raise _ _ _ Hp).
Qed.

Lemma accessors_without_length_column_witness :
  ResultTokens.get_result_at_slot no_length_buffer 0 = Raise IndexError
  ∧ ResultTokens.get_result_at_slots no_length_buffer [1; -2]
    = Raise IndexError.
Proof.
  destruct (accessors_without_length_column no_length_buffer eq_refl)
    as [Hslot Hslots].
  split; [apply Hslot | apply Hslots].
  repeat (constructor; [unfold nrows; simpl; lia|]). constructor.
Defined.

(** ** Shape of what the accessors return *)

Lemma length_gathered {A} (m : array2 A) (idx : list Z) :
  length (gathered m idx) = length idx.
Proof. unfold gathered. by rewrite length_fmap. Qed.

(** The rows a tuple picks, cut to a column range inside the width, all have
    the width of that range. *)
Lemma picked_rectangular {A} (m : array2 A) (idx : list Z) (c0 c1 : Z) :
  rectangular m →
  Forall (λ i, 0 ≤ i < Z.of_nat (nrows m)) idx →
  0 ≤ c0 → c0 ≤ c1 → c1 ≤ Z.of_nat (ncols m) →
  Forall (λ row, length row = Z.to_nat (c1 - c0))
         (getslice (range_slice (c0, c1)) <$> gathered m idx).
Proof.
  intros Hm Hidx Hc0 Hc01 Hc1. apply Forall_fmap.
  eapply Forall_impl; [|exact (gathered_row_length m idx Hm Hidx)].
  intros row Hrow. simpl in *.
  apply length_getslice_range; [done..|]. by rewrite Hrow.
Qed.

(** X5. For row indices inside the buffer, repeated or not,
    [get_result_at_slots] returns one row per index: tokens and valid are
    rectangular arrays with as many rows as the tuple has entries and the
    width of their column range, lengths has one entry per index, and so has
    log_prob when the buffer has one. *)
Theorem get_result_at_slots_shape {F} (r : ResultTokens.t F)
    (max_concurrent_decodes : Z) (idx : list Z) :
  well_formed r max_concurrent_decodes →
  Forall (λ i, 0 ≤ i < Z.of_nat (nrows (ResultTokens.data r))) idx →
  ∃ sd,
    ResultTokens.get_result_at_slots r idx = Ok sd
    ∧ nrows (SlotData.tokens sd) = length idx
    ∧ nrows (SlotData.valid sd) = length idx
    ∧ length (elems (SlotData.lengths sd)) = length idx
    ∧ Z.of_nat (ncols (SlotData.tokens sd))
      = (ResultTokens.tokens_idx r).2 - (ResultTokens.tokens_idx r).1
    ∧ Z.of_nat (ncols (SlotData.valid sd))
      = (ResultTokens.valid_idx r).2 - (ResultTokens.valid_idx r).1
    ∧ rectangular (SlotData.tokens sd)
    ∧ rectangular (SlotData.valid sd)
    ∧ (∀ lp, ResultTokens.log_prob r = Some lp →
         ∃ picked, SlotData.log_prob sd = Some picked
                   ∧ nrows picked = length idx).
Proof.
  intros Hwf Hidx.
  eexists. split; [by eapply get_result_at_slots_unfold|].
  destruct Hwf as [Hrect _ _ (Ht0 & Ht01 & Ht1) (Hv0 & Hv01 & Hv1) _ _ _].
  destruct (ResultTokens.tokens_idx r) as [t0 t1].
  destruct (ResultTokens.valid_idx r) as [v0 v1].
  unfold nrows, rectangular. simpl in *.
  rewrite !length_fmap, !length_gathered, !slice_length_range by done.
  repeat split; try lia.
  - by apply picked_rectangular.
  - by apply picked_rectangular.
  - intros lp ->. simpl. eexists. split; [done|].
    simpl. by rewrite length_gathered.
Qed.

Lemma get_result_at_slots_shape_witness :
  ∃ sd,
    ResultTokens.get_result_at_slots two_sample_buffer [3; 3; 0] = Ok sd
    ∧ nrows (SlotData.tokens sd) = 3%nat
    ∧ length (elems (SlotData.lengths sd)) = 3%nat.
Proof.
  destruct (get_result_at_slots_shape two_sample_buffer 2 [3; 3; 0]
              two_sample_buffer_well_formed)
    as (sd & Hsd & Ht & _ & Hl & _).
  { repeat constructor; simpl; lia. }
  exists sd. split; [exact Hsd|]. split; [exact Ht | exact Hl].
Defined.

(** Consecutive blocks of [k] positions, one per [s < m], are the first
    [m * k] positions. *)
Lemma concat_blocks {B} (g : nat → B) (k m : nat) :
  concat ((λ s, g <$> seq (s * k) k) <$> seq 0 m) = g <$> seq 0 (m * k).
Proof.
  induction m as [|m IH]; [done|].
  rewrite seq_S, fmap_app, concat_app, IH. simpl.
  rewrite app_nil_r, <- fmap_app. f_equal.
  replace (k + m * k)%nat with (m * k + k)%nat by lia.
  by rewrite seq_app.
Qed.

(** X6. The slots partition the buffer: on a well-formed buffer,
    [get_result_at_slot] returns for every slot of the batch, and the tokens
    (valid, lengths) of the slots [0, ..., max_concurrent_decodes - 1], put
    one after the other, are the tokens (valid, first length) columns of all
    rows of [data], each row once and in order. *)
Theorem get_result_at_slot_partition {F} (r : ResultTokens.t F)
    (max_concurrent_decodes : Z) :
  well_formed r max_concurrent_decodes →
  let d := ResultTokens.data r in
  let n := Z.of_nat (nrows d) in
  ∃ sds,
    mapM (ResultTokens.get_result_at_slot r) (all_slots max_concurrent_decodes)
    = Ok sds
    ∧ concat ((λ sd, rows (SlotData.tokens sd)) <$> sds)
      = submatrix d 0 n (ResultTokens.tokens_idx r).1
                  (ResultTokens.tokens_idx r).2
    ∧ concat ((λ sd, rows (SlotData.valid sd)) <$> sds)
      = submatrix d 0 n (ResultTokens.valid_idx r).1
                  (ResultTokens.valid_idx r).2
    ∧ concat ((λ sd, elems (SlotData.lengths sd)) <$> sds)
      = column d 0 n (ResultTokens.length_idx r).1.
Proof.
  intros Hwf d n.
  pose proof (wf_samples _ _ Hwf) as Hs.
  pose proof (wf_rows _ _ Hwf) as Hrows. fold d in Hrows. fold n in Hrows.
  assert (0 ≤ max_concurrent_decodes) as Hm by (subst n; nia).
  set (k := Z.to_nat (ResultTokens.samples_per_slot r)).
  set (m := Z.to_nat max_concurrent_decodes).
  assert (Z.to_nat (n - 0) = (m * k)%nat) as Hn by (subst k m; nia).
  assert (∀ s : nat,
            Z.to_nat (Z.of_nat s * ResultTokens.samples_per_slot r)
            = (s * k)%nat
            ∧ Z.to_nat ((Z.of_nat s + 1) * ResultTokens.samples_per_slot r
                        - Z.of_nat s * ResultTokens.samples_per_slot r) = k)
    as Hblock by (intros s; subst k; nia).
  set (sps := ResultTokens.samples_per_slot r) in *.
  set (block := λ (slot : Z) (idx : Z * Z),
         Array2 (derived (resides2 d)) (Z.to_nat (idx.2 - idx.1))
                (submatrix d (slot * sps) ((slot + 1) * sps) idx.1 idx.2)).
  set (g := λ slot : Z,
         SlotData.mk (block slot (ResultTokens.tokens_idx r))
                     (block slot (ResultTokens.valid_idx r))
                     (Array1 (derived (resides2 d))
                        (column d (slot * sps) ((slot + 1) * sps)
                                (ResultTokens.length_idx r).1))
                     (None : option (array2 F))).
  exists (g <$> all_slots max_concurrent_decodes). split.
  { apply mapM_Ok. unfold all_slots.
    apply Forall_fmap, Forall_forall. intros s Hs'.
    apply in_seq in Hs'. simpl.
    apply (get_result_at_slot_unfold r max_concurrent_decodes); [done | lia]. }
  unfold all_slots, submatrix, column. fold m. rewrite Hn. simpl.
  rewrite <- !list_fmap_compose.
  rewrite <- !concat_blocks.
  repeat split; f_equal; apply Forall_fmap_ext, Forall_forall; intros s _;
    simpl; unfold submatrix, column;
    by destruct (Hblock s) as [-> ->].
Qed.

Lemma get_result_at_slot_partition_witness :
  ∃ sds,
    mapM (ResultTokens.get_result_at_slot two_sample_buffer) [0; 1] = Ok sds
    ∧ concat ((λ sd, rows (SlotData.tokens sd)) <$> sds)
      = [[10]; [11]; [12]; [13]]
    ∧ concat ((λ sd, elems (SlotData.lengths sd)) <$> sds) = [1; 1; 2; 2].
Proof.
  destruct (get_result_at_slot_partition two_sample_buffer 2
              two_sample_buffer_well_formed)
    as (sds & Hsds & Ht & _ & Hl).
  exists sds. split; [exact Hsds|]. split; [exact Ht | exact Hl].
Defined.

(** ** Conversion, transfer and the accessors *)

(** X7. Reading a slot after [convert_to_numpy] gives what converting the
    fields of the slot read before it gives: the same tokens, valid and
    lengths, host-resident; and it raises where the read before raises. *)
Theorem convert_to_numpy_get_result_at_slot {F} (r : ResultTokens.t F)
    (slot : Z) :
  ResultTokens.get_result_at_slot (ResultTokens.convert_to_numpy r) slot
  = SlotData_to_numpy <$> ResultTokens.get_result_at_slot r slot.
Proof.
  unfold ResultTokens.get_result_at_slot, ResultTokens.convert_to_numpy,
    index_all_int, index_slice_slice, SlotData_to_numpy, np_array, np_array1.
  simpl.
  destruct (norm_index _ 0) as [j|e]; simpl; [|done].
  by destruct (mapM _ _) as [col|e]; simpl.
Qed.

(** X8. The same for a tuple of indices inside the buffer, except for
    log_prob: [convert_to_numpy] hands the log_prob array on as it is, so the
    gathered log_prob is the one gathered before the conversion,
    device-resident if the buffer's log_prob is. *)
Theorem convert_to_numpy_get_result_at_slots {F} (r : ResultTokens.t F)
    (slots : list Z) :
  Forall (λ i, - Z.of_nat (nrows (ResultTokens.data r)) ≤ i
               < Z.of_nat (nrows (ResultTokens.data r))) slots →
  ResultTokens.get_result_at_slots (ResultTokens.convert_to_numpy r) slots
  = SlotData_to_numpy <$> ResultTokens.get_result_at_slots r slots.
Proof.
  intros _.
  unfold ResultTokens.get_result_at_slots, ResultTokens.convert_to_numpy,
    index_tuple_slice, index_all_int, SlotData_to_numpy, np_array, np_array1.
  simpl.
  destruct (mapM _ slots) as [picked|e]; simpl; [|done].
  destruct (norm_index _ 0) as [j|e]; simpl; [|done].
  destruct (mapM _ _) as [col|e]; simpl; [|done].
  destruct (ResultTokens.log_prob r) as [lp|]; simpl; [|done].
  by destruct (mapM _ slots) as [lps|e]; simpl.
Qed.

Lemma convert_to_numpy_get_result_at_slots_witness :
  ∃ sd,
    ResultTokens.get_result_at_slots
      (ResultTokens.convert_to_numpy device_buffer) [2; -3] = Ok sd
    ∧ resides2 (SlotData.tokens sd) = Host
    ∧ rows (SlotData.tokens sd) = [[12]; [10]]
    ∧ (resides2 <$> SlotData.log_prob sd) = Some (Device false).
Proof.
  rewrite (convert_to_numpy_get_result_at_slots device_buffer [2; -3]).
  - eexists. split; [vm_compute; reflexivity|]. by repeat split.
  - repeat (constructor; [unfold nrows; simpl; lia|]). constructor.
Defined.

(** X9. [copy_to_host_async] changes nothing a reader can see: both accessors
    and [convert_to_numpy] give on the buffer after the call what they give
    on the buffer before it, and a second call changes nothing more. *)
Theorem copy_to_host_async_unobservable {F} (r : ResultTokens.t F) :
  let r' := (ResultTokens.copy_to_host_async r).2 in
  (∀ slot, ResultTokens.get_result_at_slot r' slot
           = ResultTokens.get_result_at_slot r slot)
  ∧ (∀ slots, ResultTokens.get_result_at_slots r' slots
              = ResultTokens.get_result_at_slots r slots)
  ∧ ResultTokens.convert_to_numpy r' = ResultTokens.convert_to_numpy r
  ∧ ResultTokens.copy_to_host_async r' = (tt, r').
Proof.
  destruct r as [[res nc rws] ti vi li sps lp].
  by destruct res.
Qed.

(** X10. [convert_to_numpy] and [copy_to_host_async] keep a well-formed buffer
    well-formed, for the same number of slots. *)
Theorem well_formed_preserved {F} (r : ResultTokens.t F)
    (max_concurrent_decodes : Z) :
  well_formed r max_concurrent_decodes →
  well_formed (ResultTokens.convert_to_numpy r) max_concurrent_decodes
  ∧ well_formed (ResultTokens.copy_to_host_async r).2 max_concurrent_decodes.
Proof.
  intros Hwf. split.
  - by destruct Hwf.
  - destruct r as [[res nc rws] ti vi li sps lp].
    by destruct res, Hwf.
Qed.

Lemma well_formed_preserved_witness :
  well_formed (ResultTokens.convert_to_numpy device_buffer) 3
  ∧ well_formed (ResultTokens.copy_to_host_async device_buffer).2 3.
Proof.
  exact (well_formed_preserved device_buffer 3 device_buffer_well_formed).
Defined.

(** X11. The buffer never checks that its column ranges are disjoint: when
    [tokens_idx] and [valid_idx] are one and the same range,
    [get_result_at_slot] returns without error, with valid equal to
    tokens. *)
Theorem get_result_at_slot_overlapping {F} (r : ResultTokens.t F)
    (max_concurrent_decodes slot : Z) :
  well_formed r max_concurrent_decodes →
  0 ≤ slot < max_concurrent_decodes →
  ResultTokens.tokens_idx r = ResultTokens.valid_idx r →
  ∃ sd,
    ResultTokens.get_result_at_slot r slot = Ok sd
    ∧ SlotData.valid sd = SlotData.tokens sd.
Proof.
  intros Hwf Hslot Heq.
  eexists. split; [by eapply get_result_at_slot_unfold|].
  simpl. by rewrite Heq.
Qed.

Lemma get_result_at_slot_overlapping_witness :
  ∃ sd,
    ResultTokens.get_result_at_slot overlapping_buffer 1 = Ok sd
    ∧ SlotData.valid sd = SlotData.tokens sd.
Proof.
  apply (get_result_at_slot_overlapping overlapping_buffer 2 1).
  - split; try (intros ? [=]); try (repeat split; simpl; lia).
    repeat constructor.
  - lia.
  - reflexivity.
Defined.

(** ** Sequences of calls through the wrapper *)

Section forwarding.
Context {T : EngineTypes} {Buckets St : Type} (E : Engine St).
Implicit Types (w : World Buckets St) (c : call) (cs : list call).

(** When every call of a class [P] through the wrapper is the same call on
    the wrapped executor, so is every sequence of such calls: the outcomes
    are the same call for call, the wrapped executor ends in the state the
    direct calls leave it in, and no other object of the heap is touched. *)
Lemma run_on_downstream (P : call → bool) cs w :
  (∀ c w, P c = true →
          invoke (JetStreamEngine_class (Buckets := Buckets) E) c w
          = on_downstream (invoke E c) w) →
  forallb P cs = true →
  let l := _downstream_engine (this w) in
  let direct := run E cs (heap w l) in
  let wrapped := run (JetStreamEngine_class E) cs w in
  wrapped.1 = direct.1
  ∧ heap wrapped.2 l = direct.2
  ∧ (∀ l', l' ≠ l → heap wrapped.2 l' = heap w l')
  ∧ this wrapped.2 = this w.
Proof.
  intros HP. revert w. induction cs as [|c cs IH]; intros w Hcs; [done|].
  simpl in Hcs. apply andb_prop in Hcs as [Hc Hcs].
  simpl. rewrite (HP c w Hc). unfold on_downstream.
  destruct (invoke E c _) as [res st].
  specialize (IH {| this := this w;
                    heap := <[_downstream_engine (this w) := st]> (heap w) |}
                 Hcs).
  simpl in IH. rewrite fn_lookup_insert in IH.
  destruct (run (JetStreamEngine_class E) cs _) as [rs w'].
  destruct (run E cs st) as [rs' st']. simpl in *.
  destruct IH as (-> & -> & Hframe & ->).
  repeat split. intros l' Hl'.
  by rewrite (Hframe l' Hl'), fn_lookup_insert_ne.
Qed.

(** An executor of the contract takes the arguments the wrapper passes on
    for the arguments the caller gave. *)
Lemma invoke_forwarded c w :
  binds_defaults E → forwarded c = true →
  invoke (JetStreamEngine_class (Buckets := Buckets) E) c w
  = on_downstream (invoke E c) w.
Proof.
  intros (Hprefill & Hmulti & Hgenerate & Hinsert) Hc.
  destruct c; simpl in Hc; try done; try apply returning_on_downstream.
  - destruct existing_prefix as [|[ep|]], sampler, request_id;
      simpl in Hc; try done; [apply returning_on_downstream|].
    unfold invoke, returning, JetStreamEngine_class, JetStreamEngine_prefill,
      on_downstream. simpl.
    rewrite (Hprefill _ (Passed None)), (Hprefill _ Omitted). simpl.
    by destruct (prefill _ _ _ _ _ _ _ _ _).
  - unfold invoke, returning, JetStreamEngine_class,
      JetStreamEngine_prefill_multisampling, on_downstream. simpl.
    rewrite (Hmulti params existing_prefix padded_tokens true_length
                    sampler rng num_samples).
    by destruct (prefill_multisampling _ _ _ _ _ _ _ _ _ _).
  - destruct sampler; [apply returning_on_downstream | done].
  - unfold invoke, returning, JetStreamEngine_class, JetStreamEngine_insert,
      on_downstream. simpl.
    rewrite (Hinsert _ decode_state slot request_id).
    by destruct (insert _ _ _ _ _ _ _).
Qed.

End forwarding.

(** X12. Through the wrapper, a sequence of calls that it hands on as it
    received them has, call for call, the outcomes (values and raised
    exceptions) of the same sequence on the wrapped executor; the wrapped
    executor ends in the state the direct calls leave it in, and no other
    object and no field of the wrapper changes. This holds for every
    executor. *)
Theorem JetStreamEngine_run_handed_on {T : EngineTypes} {Buckets St : Type}
    (E : Engine St) (cs : list call) (w : World Buckets St) :
  forallb handed_on cs = true →
  let l := _downstream_engine (this w) in
  let direct := run E cs (heap w l) in
  let wrapped := run (JetStreamEngine_class E) cs w in
  wrapped.1 = direct.1
  ∧ heap wrapped.2 l = direct.2
  ∧ (∀ l', l' ≠ l → heap wrapped.2 l' = heap w l')
  ∧ this wrapped.2 = this w.
Proof.
  apply (run_on_downstream E handed_on).
  intros c w' Hc. by apply invoke_handed_on.
Qed.

Lemma JetStreamEngine_run_handed_on_witness :
  let cs := [call_insert 1 2 3 (Passed None); read_mesh;
             call_generate tt 5 Omitted; call_bulk_insert 1 2 [0; 1]] in
  (run (JetStreamEngine_class recording_engine) cs fresh_world).1
  = (run recording_engine cs []).1
  ∧ heap (run (JetStreamEngine_class recording_engine) cs fresh_world).2 0%nat
    = cs.
Proof.
  intros cs.
  destruct (JetStreamEngine_run_handed_on recording_engine cs fresh_world
              eq_refl) as (Hout & Hst & _ & _).
  split; [exact Hout | exact Hst].
Defined.

Lemma counting_engine_binds_defaults : binds_defaults counting_engine.
Proof. by repeat split. Qed.

(** X13. For an executor that binds omitted optional arguments to the
    defaults of the [Engine] signatures, the wrapper is transparent on every
    sequence of calls made of [prefill] without existing prefix, sampler and
    request id, [generate] without sampler, and any other operation except
    [free_resource], whether their optional arguments are passed or left
    out: same outcomes call for call, same final state of the executor. *)
Theorem JetStreamEngine_run_forwarded {T : EngineTypes} {Buckets St : Type}
    (E : Engine St) (cs : list call) (w : World Buckets St) :
  binds_defaults E →
  forallb forwarded cs = true →
  let l := _downstream_engine (this w) in
  let direct := run E cs (heap w l) in
  let wrapped := run (JetStreamEngine_class E) cs w in
  wrapped.1 = direct.1
  ∧ heap wrapped.2 l = direct.2
  ∧ (∀ l', l' ≠ l → heap wrapped.2 l' = heap w l')
  ∧ this wrapped.2 = this w.
Proof.
  intros HE. apply (run_on_downstream E forwarded).
  intros c w' Hc. by apply invoke_forwarded.
Qed.

Lemma JetStreamEngine_run_forwarded_witness :
  let cs := [call_prefill tt (Passed None) [1; 2; 3] 3 Omitted Omitted;
             call_insert 3 0 1 Omitted;
             call_prefill_multisampling tt Omitted [1; 2] 2 Omitted Omitted
                                        (Passed 3);
             call_generate tt 3 Omitted] in
  (run (JetStreamEngine_class counting_engine) cs counting_world).1
  = (run counting_engine cs 0).1
  ∧ heap (run (JetStreamEngine_class counting_engine) cs counting_world).2
         0%nat = 4.
Proof.
  intros cs.
  destruct (JetStreamEngine_run_forwarded counting_engine cs counting_world
              counting_engine_binds_defaults eq_refl) as (Hout & Hst & _ & _).
  split; [exact Hout | exact Hst].
Defined.

(** X14. Unlike [free_resource], [build_tokenizer] is forwarded: on an
    executor that keeps the [build_tokenizer] of [Engine], the wrapper's
    [build_tokenizer] returns what [SentencePieceTokenizer] makes of the
    metadata (or raises what it raises), and leaves every executor and the
    wrapper as they were. *)
Theorem JetStreamEngine_build_tokenizer_default {T : EngineTypes}
    {Buckets St : Type} (E : Engine St) (metadata : TokenizerParameters)
    (w : World Buckets St) :
  (∀ md st, build_tokenizer St E md st = Engine_build_tokenizer md st) →
  let out := build_tokenizer _ (JetStreamEngine_class E) metadata w in
  out.1 = SentencePieceTokenizer metadata
  ∧ (∀ l, heap out.2 l = heap w l)
  ∧ this out.2 = this w.
Proof.
  intros HE. simpl.
  unfold JetStreamEngine_build_tokenizer, on_downstream.
  rewrite HE. unfold Engine_build_tokenizer. simpl.
  repeat split. intros l.
  destruct (decide (_downstream_engine (this w) = l)) as [<-|Hne].
  - by rewrite fn_lookup_insert.
  - by rewrite fn_lookup_insert_ne.
Qed.

Lemma JetStreamEngine_build_tokenizer_default_witness :
  (build_tokenizer _ (JetStreamEngine_class counting_engine) tt
                   counting_world).1 = Ok tt
  ∧ heap (build_tokenizer _ (JetStreamEngine_class counting_engine) tt
                          counting_world).2 0%nat = 0.
Proof.
  destruct (JetStreamEngine_build_tokenizer_default counting_engine tt
              counting_world) as (Hout & Hheap & _); [done|].
  split; [exact Hout | exact (Hheap 0%nat)].
Defined.

(** ** Locality and clipping *)

Lemma other_rows_buffer_well_formed : well_formed other_rows_buffer 4.
Proof.
  split; try (intros ? [=]); try (repeat split; simpl; lia).
  repeat constructor.
Qed.

(** X15. What [get_result_at_slot] returns for a slot depends on the rows of
    that slot only: two well-formed buffers with the same layout that agree
    on the rows [[slot * samples_per_slot, (slot + 1) * samples_per_slot)]
    give the same [SlotData], whatever their other rows hold. *)
Theorem get_result_at_slot_local {F} (r r' : ResultTokens.t F)
    (max_concurrent_decodes slot : Z) :
  well_formed r max_concurrent_decodes →
  well_formed r' max_concurrent_decodes →
  0 ≤ slot < max_concurrent_decodes →
  ResultTokens.tokens_idx r = ResultTokens.tokens_idx r' →
  ResultTokens.valid_idx r = ResultTokens.valid_idx r' →
  ResultTokens.length_idx r = ResultTokens.length_idx r' →
  ResultTokens.samples_per_slot r = ResultTokens.samples_per_slot r' →
  resides2 (ResultTokens.data r) = resides2 (ResultTokens.data r') →
  (∀ i : nat,
     slot * ResultTokens.samples_per_slot r ≤ Z.of_nat i
       < (slot + 1) * ResultTokens.samples_per_slot r →
     nth i (rows (ResultTokens.data r)) []
     = nth i (rows (ResultTokens.data r')) []) →
  ResultTokens.get_result_at_slot r slot
  = ResultTokens.get_result_at_slot r' slot.
Proof.
  intros Hwf Hwf' Hslot Ht Hv Hl Hs Hres Hrows.
  destruct (slot_range r _ slot Hwf Hslot) as (Hr0 & Hr01 & Hr1).
  rewrite (get_result_at_slot_unfold r _ slot Hwf Hslot).
  rewrite (get_result_at_slot_unfold r' _ slot Hwf' Hslot).
  simpl. rewrite <- Ht, <- Hv, <- Hl, <- Hs, <- Hres.
  assert (∀ c0 c1,
            submatrix (ResultTokens.data r)
              (slot * ResultTokens.samples_per_slot r)
              ((slot + 1) * ResultTokens.samples_per_slot r) c0 c1
            = submatrix (ResultTokens.data r')
                (slot * ResultTokens.samples_per_slot r)
                ((slot + 1) * ResultTokens.samples_per_slot r) c0 c1) as Hsub.
  { intros c0 c1. unfold submatrix.
    apply Forall_fmap_ext, Forall_forall. intros i Hi. apply in_seq in Hi.
    simpl. unfold entry. rewrite Hrows by lia. done. }
  assert (∀ c,
            column (ResultTokens.data r)
              (slot * ResultTokens.samples_per_slot r)
              ((slot + 1) * ResultTokens.samples_per_slot r) c
            = column (ResultTokens.data r')
                (slot * ResultTokens.samples_per_slot r)
                ((slot + 1) * ResultTokens.samples_per_slot r) c) as Hcol.
  { intros c. unfold column.
    apply Forall_fmap_ext, Forall_forall. intros i Hi. apply in_seq in Hi.
    simpl. unfold entry. rewrite Hrows by lia. done. }
  by rewrite !Hsub, Hcol.
Qed.

Lemma get_result_at_slot_local_witness :
  ResultTokens.get_result_at_slot example_buffer 1
  = ResultTokens.get_result_at_slot other_rows_buffer 1.
Proof.
  apply (get_result_at_slot_local example_buffer other_rows_buffer 4 1
           example_buffer_well_formed other_rows_buffer_well_formed);
    try reflexivity; [lia|].
  intros i Hi. simpl in Hi.
  assert (i = 1%nat) as -> by lia. reflexivity.
Defined.

Lemma getslice_range_clipped {A} (l : list A) (a b : Z) :
  0 ≤ a → a ≤ Z.of_nat (length l) → Z.of_nat (length l) ≤ b →
  getslice (range_slice (a, b)) l
  = getslice (range_slice (a, Z.of_nat (length l))) l.
Proof.
  intros Ha Hal Hb.
  unfold getslice, slice_indices, range_slice, clip_bound. simpl.
  destruct (Z.ltb_spec a 0), (Z.ltb_spec b 0),
    (Z.ltb_spec (Z.of_nat (length l)) 0); try lia.
  f_equal. lia.
Qed.

(** X16. A column range that runs past the width of the buffer is not an
    error: the slice is cut at the width, and [get_result_at_slot] returns as
    tokens the columns from the start of the range to the last column. *)
Theorem get_result_at_slot_clipped {F} (r : ResultTokens.t F) (slot : Z)
    (sd : SlotData.t F) :
  rectangular (ResultTokens.data r) →
  0 ≤ (ResultTokens.tokens_idx r).1 →
  (ResultTokens.tokens_idx r).1 ≤ Z.of_nat (ncols (ResultTokens.data r)) →
  Z.of_nat (ncols (ResultTokens.data r)) ≤ (ResultTokens.tokens_idx r).2 →
  ResultTokens.get_result_at_slot r slot = Ok sd →
  let s := ResultTokens.samples_per_slot r in
  SlotData.tokens sd
  = index_slice_slice
      (range_slice (slot * s, (slot + 1) * s))
      (range_slice ((ResultTokens.tokens_idx r).1,
                    Z.of_nat (ncols (ResultTokens.data r))))
      (ResultTokens.data r).
Proof.
  intros Hrect Ha Hal Hb. unfold ResultTokens.get_result_at_slot.
  destruct (index_all_int 0 _) as [lengths|e]; simpl; [|done].
  intros [= <-]. simpl.
  destruct (ResultTokens.tokens_idx r) as [a b]. simpl in *.
  unfold index_slice_slice. f_equal.
  - unfold slice_length, slice_indices, range_slice, clip_bound. simpl.
    destruct (Z.ltb_spec a 0), (Z.ltb_spec b 0),
      (Z.ltb_spec (Z.of_nat (ncols (ResultTokens.data r))) 0); lia.
  - apply Forall_fmap_ext.
    assert (Forall (λ row, length row = ncols (ResultTokens.data r))
              (getslice (range_slice
                           (slot * ResultTokens.samples_per_slot r,
                            (slot + 1) * ResultTokens.samples_per_slot r))
                        (rows (ResultTokens.data r)))) as Hsel.
    { unfold getslice. destruct (slice_indices _ _) as [lo hi].
      by apply Forall_take, Forall_drop. }
    eapply Forall_impl; [|exact Hsel]. intros row Hrow. simpl in Hrow.
    rewrite <- Hrow. apply getslice_range_clipped; lia.
Qed.

Lemma get_result_at_slot_clipped_witness :
  ∃ sd,
    ResultTokens.get_result_at_slot wide_range_buffer 1 = Ok sd
    ∧ rows (SlotData.tokens sd) = [[7; 1; 1]]
    ∧ ncols (SlotData.tokens sd) = 3%nat.
Proof.
  eexists. split; [vm_compute; reflexivity|].
  rewrite (get_result_at_slot_clipped wide_range_buffer 1 _);
    [ split; reflexivity
    | repeat constructor
    | simpl; lia..
    | vm_compute; reflexivity ].
Defined.
